(** * Cora node-classification notebook: a model of its workflow

    The notebook drives a graph database through two Cypher load
    queries and a sequence of pipeline calls.  This development embeds

    - the label table [SUBJECT_TO_ID] and the hold-out count,
    - the two Cypher queries [load_nodes] and [load_relationships],
      read clause by clause over an explicit property-graph store,
    - the cells of the notebook as a sequence of Python statements
      that read and bind global names and issue remote calls,
    - the in-memory graph operations used for prediction and
      write-back, and the outputs recorded in the notebook.  *)

From Stdlib Require Import ZArith QArith.
From Stdlib Require DecimalString.
From stdpp Require Import gmap strings list fin_maps.

Local Open Scope string_scope.
Local Open Scope list_scope.
Local Open Scope nat_scope.

(** ** Configuration cells *)

Module Config.

(** The Python dict [SUBJECT_TO_ID], in insertion order. *)
Definition SUBJECT_TO_ID : list (string * Z) :=
  [ ("Neural_Networks", 0%Z);
    ("Rule_Learning", 1%Z);
    ("Reinforcement_Learning", 2%Z);
    ("Probabilistic_Methods", 3%Z);
    ("Theory", 4%Z);
    ("Genetic_Algorithms", 5%Z);
    ("Case_Based", 6%Z) ].

Definition HOLDOUT_NODES : nat := 10.

(** The map literal that the JSON dump of [SUBJECT_TO_ID], with its
    double quotes turned into backticks, splices into the query: a
    Cypher map from the same keys to the same integers. *)
Definition subject_to_id : gmap string Z := list_to_map SUBJECT_TO_ID.

(** Reading the table backwards: the subject string of an integer code. *)
Definition id_to_subject (c : Z) : option string :=
  (λ hit, hit.2.1) <$> list_find (λ kv, kv.2 = c) SUBJECT_TO_ID.

End Config.

(** ** The property-graph store and the two load queries *)

Module Cypher.
Import Config.

(** Property values the workflow stores on nodes. *)
Inductive value :=
| VInt (z : Z)
| VList (l : list Z)
| VFloats (l : list Q).

#[global] Instance Q_eq_dec : EqDecision Q.
Proof. solve_decision. Defined.

#[global] Instance value_eq_dec : EqDecision value.
Proof. solve_decision. Defined.

Record node := Node {
  node_id : nat;
  node_labels : gset string;
  node_props : gmap string value
}.

Record relationship := Rel {
  rel_start : nat;
  rel_type : string;
  rel_end : nat
}.

#[global] Instance relationship_eq_dec : EqDecision relationship.
Proof. solve_decision. Defined.

(** The database: nodes in creation order, relationships in creation
    order, and the next free internal node identifier. *)
Record graph := Graph {
  nodes : list node;
  rels : list relationship;
  next_id : nat
}.

Definition empty_graph : graph := Graph [] [] 0.

(** A line of a CSV source, already split into its fields. *)
Definition csv_row := list string.

Definition has_label (l : string) (n : node) : bool :=
  bool_decide (l ∈ node_labels n).

Definition update_node (f : node → node) (i : nat) (g : graph) : graph :=
  Graph ((λ n, if decide (node_id n = i) then f n else n) <$> nodes g)
        (rels g) (next_id g).

Definition remove_label (l : string) (n : node) : node :=
  Node (node_id n) (node_labels n ∖ {[l]}) (node_props n).

Definition set_label (l : string) (n : node) : node :=
  Node (node_id n) (node_labels n ∪ {[l]}) (node_props n).

Section Queries.

(** The engine's [toInteger] on a string field: the integer it denotes,
    or null. *)
Variable toInteger : string → option Z.

(** [toIntegerList]: element-wise conversion, null where an element does
    not convert. *)
Definition toIntegerList (l : list string) : list (option Z) :=
  toInteger <$> l.

(** The bindings of the [WITH] clause of [load_nodes], for one row:
    [toInteger(row[0])], [subject_to_id[row[1]]] and
    [toIntegerList(row[2..])].  An index out of range is null. *)
Record paper_binding := PaperBinding {
  b_extId : option Z;
  b_subject : option Z;
  b_features : list (option Z)
}.

Definition bind_row (row : csv_row) : paper_binding :=
  PaperBinding (row !! 0 ≫= toInteger)
               (row !! 1 ≫= (λ subject, subject_to_id !! subject))
               (toIntegerList (drop 2 row)).

Definition paper_props (extId subject : Z) (features : list Z)
  : gmap string value :=
  {[ "extId" := VInt extId; "subject" := VInt subject;
     "features" := VList features ]}.

(** The pattern [(p:Paper {extId: .., subject: .., features: ..})]. *)
Definition matches_paper (extId subject : Z) (features : list Z) (n : node)
  : bool :=
  bool_decide ("Paper" ∈ node_labels n
               ∧ node_props n !! "extId" = Some (VInt extId)
               ∧ node_props n !! "subject" = Some (VInt subject)
               ∧ node_props n !! "features" = Some (VList features)).

(** [MERGE] for one row: a null property value is an error; otherwise
    the row is bound to every node matching the pattern, and when there
    is none a node is created and bound. *)
Definition merge_paper (g : graph) (b : paper_binding)
  : option (graph * list nat) :=
  extId ← b_extId b;
  subject ← b_subject b;
  features ← mapM id (b_features b);
  match filter (λ n, matches_paper extId subject features n) (nodes g) with
  | [] =>
      let p := Node (next_id g) {[ "Paper" ]}
                    (paper_props extId subject features) in
      Some (Graph (nodes g ++ [p]) (rels g) (S (next_id g)), [next_id g])
  | hits => Some (g, node_id <$> hits)
  end.

(** The [MERGE] clause over the whole table, row after row; the result
    table holds the bound [p] of every row, in order. *)
Fixpoint merge_papers (g : graph) (bs : list paper_binding)
  : option (graph * list nat) :=
  match bs with
  | [] => Some (g, [])
  | b :: bs' =>
      '(g1, ps1) ← merge_paper g b;
      '(g2, ps2) ← merge_papers g1 bs';
      Some (g2, ps1 ++ ps2)
  end.

(** [load_nodes]: LOAD CSV, WITH, MERGE, WITH p LIMIT k, REMOVE p:Paper,
    SET p:UnclassifiedPaper.  Each clause works on the table its
    predecessor leaves: [MERGE] runs for every row, [LIMIT] keeps the
    first [holdout] bound nodes, and the two label updates run over
    those. *)
Definition load_nodes (holdout : nat) (content : list csv_row) (g : graph)
  : option graph :=
  '(g1, ps) ← merge_papers g (bind_row <$> content);
  let held := take holdout ps in
  let g2 := foldl (λ acc p, update_node (remove_label "Paper") p acc) g1 held in
  Some (foldl (λ acc p, update_node (set_label "UnclassifiedPaper") p acc)
              g2 held).

(** The comparison [n.extId = toInteger(field)]: true only when both
    sides are integers and equal. *)
Definition extId_is (x : option Z) (n : node) : bool :=
  match x, node_props n !! "extId" with
  | Some z, Some (VInt z') => bool_decide (z = z')
  | _, _ => false
  end.

(** [MATCH (n), (m) WHERE ..] for one row: every pair of nodes that
    satisfies the predicate. *)
Definition match_row (g : graph) (row : csv_row) : list (nat * nat) :=
  n ← filter (λ n, extId_is (row !! 0 ≫= toInteger) n) (nodes g);
  m ← filter (λ m, extId_is (row !! 1 ≫= toInteger) m) (nodes g);
  [(node_id n, node_id m)].

(** [MERGE (n)-[:CITES]->(m)] for one bound pair. *)
Definition merge_cites (g : graph) (nm : nat * nat) : graph :=
  let r := Rel nm.1 "CITES" nm.2 in
  if decide (r ∈ rels g) then g
  else Graph (nodes g) (rels g ++ [r]) (next_id g).

(** [load_relationships]: LOAD CSV, MATCH .. WHERE, MERGE.  No clause of
    it can fail: a row that binds no pair passes nothing on. *)
Definition load_relationships (cites : list csv_row) (g : graph) : option graph :=
  Some (foldl merge_cites g (cites ≫= match_row g)).

(** The notebook's two [run_cypher] calls, one after the other. *)
Definition load (holdout : nat) (content cites : list csv_row) (g : graph)
  : option graph :=
  load_nodes holdout content g ≫= load_relationships cites.

(** A content row every field of which converts: an integer identifier,
    a subject of the table, integer features. *)
Definition well_formed_row (row : csv_row) : Prop :=
  is_Some (b_extId (bind_row row))
  ∧ is_Some (b_subject (bind_row row))
  ∧ Forall is_Some (b_features (bind_row row)).

(** No two content rows carry the same external identifier. *)
Definition distinct_ids (content : list csv_row) : Prop :=
  NoDup ((λ row, b_extId (bind_row row)) <$> content).

#[global] Instance well_formed_row_dec (row : csv_row) :
  Decision (well_formed_row row).
Proof. unfold well_formed_row. apply _. Defined.

#[global] Instance distinct_ids_dec (content : list csv_row) :
  Decision (distinct_ids content).
Proof. unfold distinct_ids. apply _. Defined.

(** Both identifiers of a citation row are the [extId] of some node. *)
Definition both_resolve (g : graph) (row : csv_row) : bool :=
  bool_decide (Exists (λ n, extId_is (row !! 0 ≫= toInteger) n) (nodes g)
               ∧ Exists (λ m, extId_is (row !! 1 ≫= toInteger) m) (nodes g)).

End Queries.

(** The edges an undirected, keep-one view retains: one per unordered
    pair of end points. *)
Definition unordered (r : relationship) : nat * nat :=
  (rel_start r `min` rel_end r, rel_start r `max` rel_end r).

Definition undirected_edges (g : graph) : list (nat * nat) :=
  remove_dups (unordered <$> rels g).

Definition nodes_with (l : string) (g : graph) : list node :=
  filter (λ n, has_label l n) (nodes g).

(** The category of the node created by the [i]-th content row when the
    first [holdout] rows are held out. *)
Definition held_out_labels (holdout i : nat) : gset string :=
  if decide (i < holdout) then {[ "UnclassifiedPaper" ]} else {[ "Paper" ]}.

(** The bindings of a row all of whose fields convert, the node [MERGE]
    creates for it, and the effect of a label update over a table. *)
Definition triple : Type := Z * Z * list Z.

Definition binding_of (t : triple) : paper_binding :=
  PaperBinding (Some t.1.1) (Some t.1.2) (Some <$> t.2).

Definition fresh_paper (base i : nat) (t : triple) : node :=
  Node (base + i) {[ "Paper" ]} (paper_props t.1.1 t.1.2 t.2).

Definition relabel (f : node → node) (ps : list nat) (n : node) : node :=
  if decide (node_id n ∈ ps) then f n else n.

Definition loaded_paper (holdout i : nat) (t : triple) : node :=
  Node i (held_out_labels holdout i) (paper_props t.1.1 t.1.2 t.2).

End Cypher.

(** ** The in-memory graph: projection, prediction, streaming, write-back *)

Module Engine.
Import Cypher.

(** The node projection of the notebook's [gds.graph.project] call: the
    projected categories, each with its property list. *)
Definition cora_projection : list (string * list string) :=
  [ ("Paper", ["features"; "subject"]);
    ("UnclassifiedPaper", ["features"]) ].

(** Modelled from the spec: the trained model handle, absent from the
    notebook, as far as prediction uses it: a class and a probability
    vector for every node. *)
Record trained_model := TrainedModel {
  predict_class : node → Z;
  predict_probabilities : node → list Q
}.

Definition in_categories (cats : list string) (n : node) : bool :=
  bool_decide (Exists (λ l, l ∈ node_labels n) cats).

(** Modelled from the spec: the engine's projection, absent from the
    notebook.  The in-memory view keeps the nodes of the selected
    categories, restricted to those categories and to the properties
    selected for them.  This is the view of one node. *)
Definition project_node (spec : list (string * list string)) (n : node)
  : option node :=
  let sel := filter (λ cp, cp.1 ∈ node_labels n) spec in
  if decide (sel = []) then None
  else Some (Node (node_id n) (list_to_set sel.*1)
                  (filter (λ kv, kv.1 ∈ concat sel.*2) (node_props n))).

(** Modelled from the spec: the engine's projection, absent from the
    notebook, over the whole database. *)
Definition project (spec : list (string * list string)) (g : graph)
  : list node :=
  omap (project_node spec) (nodes g).

(** Modelled from the spec: the engine's [predict_mutate], absent from
    the notebook.  It mutates the in-memory graph with the predicted
    class and probability properties of the nodes of the target
    category. *)
Definition predict_mutate (m : trained_model)
    (mutateProperty predictedProbabilityProperty : string)
    (targetNodeLabels : list string) (G : list node) : list node :=
  (λ n, if in_categories targetNodeLabels n
        then Node (node_id n) (node_labels n)
               (<[ mutateProperty := VInt (predict_class m n) ]>
                  (<[ predictedProbabilityProperty :=
                        VFloats (predict_probabilities m n) ]>
                     (node_props n)))
        else n) <$> G.

(** Modelled from the spec: the engine's [streamNodeProperty], absent
    from the notebook.  It streams the property back as a table keyed by
    node identifier, over the nodes of the given categories. *)
Definition streamNodeProperty (G : list node) (property : string)
    (node_labels : list string) : list (nat * value) :=
  omap (λ n, if in_categories node_labels n
             then (λ v, (node_id n, v)) <$> node_props n !! property
             else None) G.

(** Modelled from the spec: the engine's [nodeProperties.write], absent
    from the notebook.  It copies the named in-memory properties of the
    nodes of the given categories to the backing database.  This is the
    copy of the named properties that the in-memory node has. *)
Definition copy_props (names : list string) (src dst : gmap string value)
  : gmap string value :=
  foldr (λ k acc, match src !! k with
                  | Some v => <[ k := v ]> acc
                  | None => acc
                  end) dst names.

(** Modelled from the spec: the engine's [nodeProperties.write], absent
    from the notebook, for one database node: the in-memory node of the
    same identifier, when it is of the given categories, gives its named
    properties. *)
Definition write_node (G : list node) (node_properties node_labels : list string)
    (n : node) : node :=
  match list_find (λ p, node_id p = node_id n) G with
  | Some (_, p) =>
      if in_categories node_labels p
      then Node (node_id n) (Cypher.node_labels n)
                (copy_props node_properties (node_props p) (node_props n))
      else n
  | None => n
  end.

(** Modelled from the spec: the engine's [nodeProperties.write], absent
    from the notebook, over the whole database. *)
Definition write (G : list node) (node_properties node_labels : list string)
    (g : graph) : graph :=
  Graph (write_node G node_properties node_labels <$> nodes g)
        (rels g) (next_id g).

(** The prediction cells of the notebook, from the loaded database to
    the streamed table. *)
Definition predicted (m : trained_model) (g : graph) : list (nat * value) :=
  let G := project cora_projection g in
  let G' := predict_mutate m "predictedClass" "predictedProbabilities"
                           ["UnclassifiedPaper"] G in
  streamNodeProperty G' "predictedClass" ["UnclassifiedPaper"].

(** The write-back cell of the notebook. *)
Definition write_back (m : trained_model) (g : graph) : graph :=
  let G := project cora_projection g in
  let G' := predict_mutate m "predictedClass" "predictedProbabilities"
                           ["UnclassifiedPaper"] G in
  write G' ["predictedClass"] ["UnclassifiedPaper"] g.

(** The in-memory graph after the prediction cell, node by node, and the
    row the stream yields for one of its nodes. *)
Definition mutated (m : trained_model) (p : node) : node :=
  Node (node_id p) (node_labels p)
       (<[ "predictedClass" := VInt (predict_class m p) ]>
          (<[ "predictedProbabilities" := VFloats (predict_probabilities m p) ]>
             (node_props p))).

Definition in_memory (m : trained_model) (ns : list node) : list node :=
  predict_mutate m "predictedClass" "predictedProbabilities"
                 ["UnclassifiedPaper"] (omap (project_node cora_projection) ns).


End Engine.

(** ** The cells of the notebook as a program *)

Module Notebook.

Inductive query := LoadNodes | LoadRelationships | DeleteRows.

(** The calls that leave the notebook for the database or the engine. *)
Inductive remote :=
| Connect
| RunCypher (q : query)
| GraphProject
| PipelineCreate
| PipelineList
| SelectFeatures
| ConfigureSplit
| AddLogisticRegression
| ConfigureAutoTuning
| TrainEstimate
| Train
| PredictMutate
| StreamNodeProperty
| AsNodes
| WriteNodeProperties
| Drop (handle : string)
| Close.

#[global] Instance query_eq_dec : EqDecision query.
Proof. solve_decision. Defined.

#[global] Instance remote_eq_dec : EqDecision remote.
Proof. solve_decision. Defined.

(** A top-level statement: the global names it evaluates, in evaluation
    order, the remote call it issues once they are evaluated, and the
    global names it binds when it returns. *)
Record stmt := Stmt {
  reads : list string;
  call : option remote;
  binds : list string
}.

Definition assign (targets : list string) (uses : list string) : stmt :=
  Stmt uses None targets.

Definition invoke (uses : list string) (c : remote) (targets : list string)
  : stmt :=
  Stmt uses (Some c) targets.

Definition imports : list stmt :=
  [ assign ["os"] []; assign ["json"] []; assign ["np"] [];
    assign ["pd"] []; assign ["GraphDataScience"] [] ].

Definition connect : list stmt :=
  [ assign ["NEO4J_URI"] []; assign ["NEO4J_DB"] []; assign ["NEO4J_AUTH"] [];
    invoke ["GraphDataScience"; "NEO4J_URI"; "NEO4J_AUTH"; "NEO4J_DB"]
           Connect ["gds"] ].

Definition sources : list stmt :=
  [ assign ["CORA_CONTENT"] []; assign ["CORA_CITES"] [] ].

Definition constants : list stmt :=
  [ assign ["SUBJECT_TO_ID"] []; assign ["HOLDOUT_NODES"] [] ].

Definition loading : list stmt :=
  [ assign ["subject_map"] ["json"; "SUBJECT_TO_ID"];
    assign ["load_nodes"] ["CORA_CONTENT"; "subject_map"; "HOLDOUT_NODES"];
    assign ["load_relationships"] ["CORA_CITES"];
    invoke ["gds"; "load_nodes"] (RunCypher LoadNodes) [];
    invoke ["gds"; "load_relationships"] (RunCypher LoadRelationships) [] ].

Definition projecting : list stmt :=
  [ invoke ["gds"] GraphProject ["G"; "_"] ].

Definition creating : list stmt :=
  [ invoke ["gds"] PipelineCreate ["node_pipeline"; "_"] ].

Definition listing : list stmt :=
  [ invoke ["gds"] PipelineList [];
    invoke ["gds"; "node_pipeline"] PipelineList [] ].

Definition configuring : list stmt :=
  [ invoke ["node_pipeline"] SelectFeatures [];
    invoke ["node_pipeline"] ConfigureSplit [];
    invoke ["node_pipeline"] AddLogisticRegression [];
    invoke ["node_pipeline"] ConfigureAutoTuning [] ].

Definition estimating : list stmt :=
  [ invoke ["node_pipeline"; "G"] TrainEstimate [] ].

Definition training : list stmt :=
  [ invoke ["node_pipeline"; "G"] Train ["model"; "stats"] ].

Definition inspecting : list stmt :=
  [ assign [] ["stats"] ].

Definition predicting : list stmt :=
  [ invoke ["model"; "G"] PredictMutate [];
    invoke ["gds"; "G"] StreamNodeProperty ["predicted"] ].

Definition showing : list stmt :=
  [ assign [] ["predicted"] ].

Definition comparing : list stmt :=
  [ invoke ["gds"; "predicted"] AsNodes ["nodes"];
    assign ["nodes_df"] ["pd"; "nodes"];
    assign [] ["predicted"; "nodes_df"] ].

Definition writing : list stmt :=
  [ invoke ["gds"; "G"] WriteNodeProperties [] ].

Definition cleanup : list stmt :=
  [ invoke ["model"] (Drop "model") [];
    invoke ["model_fastrp"] (Drop "model_fastrp") [];
    invoke ["node_pipeline"] (Drop "node_pipeline") [];
    invoke ["node_pipeline_fastrp"] (Drop "node_pipeline_fastrp") [];
    invoke ["G"] (Drop "G") [] ].

Definition deleting : list stmt :=
  [ invoke ["gds"] (RunCypher DeleteRows) [] ].

Definition closing : list stmt :=
  [ invoke ["gds"] Close [] ].

(** The code cells, top to bottom. *)
Definition cells : list (list stmt) :=
  [ imports; connect; sources; constants; loading; projecting; creating;
    listing; configuring; estimating; training; inspecting; predicting;
    showing; comparing; writing; cleanup; deleting; closing ].

Definition notebook : list stmt := concat cells.

(** How a run ends: every statement ran, a name was not defined, or the
    statement at some position raised. *)
Inductive outcome :=
| Completed
| NameError (name : string)
| Raised (position : nat).

(** The global names defined so far and the remote calls issued so far. *)
Record state := State {
  env : gset string;
  trace : list remote
}.

Definition initial : state := State ∅ [].

Definition unbound (st : state) (s : stmt) : option string :=
  snd <$> list_find (λ x, x ∉ env st) (reads s).

Definition issue (s : stmt) (st : state) : state :=
  State (env st) (trace st ++ option_list (call s)).

Definition bind_targets (s : stmt) (st : state) : state :=
  State (env st ∪ list_to_set (binds s)) (trace st).

(** Running statements in order from position [i].  A statement first
    evaluates its names, and stops the run at the first one that is not
    defined; then it issues its call; then, when [raises] says so, it
    stops the run with an exception; otherwise it binds its targets. *)
Fixpoint run (raises : nat → bool) (i : nat) (prog : list stmt) (st : state)
  : state * outcome :=
  match prog with
  | [] => (st, Completed)
  | s :: rest =>
      match unbound st s with
      | Some x => (st, NameError x)
      | None =>
          if raises i then (issue s st, Raised i)
          else run raises (S i) rest (bind_targets s (issue s st))
      end
  end.

(** The calls that follow the first drop in the clean-up. *)
Definition later_cleanup : list remote :=
  [ Drop "model_fastrp"; Drop "node_pipeline"; Drop "node_pipeline_fastrp";
    Drop "G"; RunCypher DeleteRows; Close ].

Definition nothing_raises : nat → bool := λ _, false.

End Notebook.

(** ** The pipeline configuration of the notebook *)

Module Pipeline.

Record split_config := SplitConfig {
  testFraction : Q;
  validationFolds : nat
}.

(** [configureSplit], with the arguments the notebook passes. *)
Definition splitConfig : split_config := SplitConfig 0.2 5.

End Pipeline.

(** ** The outputs recorded in the notebook *)

Module Recorded.

(** The table displayed for [predicted]: node identifier and predicted
    class. *)
Definition predicted : list (nat * Z) :=
  [ (0, 0%Z); (1, 5%Z); (2, 2%Z); (3, 2%Z); (4, 3%Z);
    (5, 5%Z); (6, 6%Z); (7, 0%Z); (8, 0%Z); (9, 4%Z) ].

(** The result displayed for the write-back. *)
Record write_result := WriteResult {
  graphName : string;
  nodeProperties : list string;
  propertiesWritten : nat
}.

Definition written : write_result :=
  WriteResult "cora-graph" ["predictedClass"] 10.

End Recorded.

(** ** Sample inputs *)

Module Samples.
Import Cypher Engine.

(** A stand-in for the engine's [toInteger]: signed decimal numerals. *)
Definition parse_int (s : string) : option Z :=
  Z.of_int <$> DecimalString.NilZero.int_of_string s.

Definition paper_a : csv_row := ["35"; "Genetic_Algorithms"; "0"; "1"; "0"].
Definition paper_b : csv_row := ["40"; "Theory"; "1"; "1"; "0"].
Definition paper_c : csv_row := ["114"; "Case_Based"; "0"; "0"; "1"].

(** Same identifier as [paper_a], other features. *)
Definition paper_a' : csv_row := ["35"; "Genetic_Algorithms"; "1"; "1"; "1"].

Definition content : list csv_row := [paper_a; paper_b; paper_c].

Definition cites : list csv_row :=
  [ ["35"; "40"]; ["40"; "35"]; ["35"; "40"]; ["35"; "887"]; ["114"] ].

Definition loaded_nodes : graph :=
  default empty_graph (load_nodes parse_int 2 content empty_graph).

Definition loaded : graph :=
  default empty_graph (load parse_int 2 content cites empty_graph).

(** A model that answers class 3 and an even split everywhere. *)
Definition constant_model : trained_model :=
  TrainedModel (λ _, 3%Z) (λ _, [0.5; 0.5]%Q).

End Samples.

(** ** The clean-up query and the shape of the store *)

Module Store.
Import Cypher.

(** The predicate [n:Paper OR n:UnclassifiedPaper] of the clean-up
    query. *)
Definition loaded_row (n : node) : bool :=
  has_label "Paper" n || has_label "UnclassifiedPaper" n.

(** The clean-up query, MATCH (n) WHERE n:Paper OR n:UnclassifiedPaper
    DETACH DELETE n: every node the predicate selects goes, and with it
    every relationship that starts or ends at it. *)
Definition delete_rows (g : graph) : graph :=
  let doomed := node_id <$> filter (λ n, loaded_row n) (nodes g) in
  Graph (filter (λ n, ¬ loaded_row n) (nodes g))
        (filter (λ r, (rel_start r ∉ doomed) ∧ (rel_end r ∉ doomed)) (rels g))
        (next_id g).

(** The identifiers in use. *)
Definition node_ids (g : graph) : list nat := node_id <$> nodes g.

(** A store as the database keeps it: node identifiers are pairwise
    distinct and below the next free one, and every relationship joins
    two nodes of the store. *)
Definition well_formed (g : graph) : Prop :=
  NoDup (node_ids g)
  ∧ Forall (λ n, node_id n < next_id g) (nodes g)
  ∧ Forall (λ r, rel_start r ∈ node_ids g ∧ rel_end r ∈ node_ids g) (rels g).

#[global] Instance well_formed_dec (g : graph) : Decision (well_formed g).
Proof. unfold well_formed. apply _. Defined.

(** A node as the load query leaves it: one of the two categories, and
    the three properties of the [MERGE] pattern, the subject being a
    code of the table. *)
Definition paper_shaped (n : node) : Prop :=
  (node_labels n = {[ "Paper" ]} ∨ node_labels n = {[ "UnclassifiedPaper" ]})
  ∧ ∃ extId subject features,
      node_props n = paper_props extId subject features
      ∧ (0 ≤ subject ≤ 6)%Z.

(** The node a [MERGE] creates. *)
Definition created (i : nat) (e s : Z) (f : list Z) : node :=
  Node i {[ "Paper" ]} (paper_props e s f).

(** Holding out the nodes of a table: [REMOVE p:Paper] then
    [SET p:UnclassifiedPaper]. *)
Definition hold_out (held : list nat) (n : node) : node :=
  if decide (node_id n ∈ held)
  then set_label "UnclassifiedPaper" (remove_label "Paper" n)
  else n.

(** The relationship a bound pair stands for. *)
Definition cites_rel (nm : nat * nat) : relationship := Rel nm.1 "CITES" nm.2.

(** The node a second run of the load creates for a held-out row. *)
Definition duplicate_paper (base i : nat) (t : triple) : node :=
  Node (base + i) {[ "UnclassifiedPaper" ]} (paper_props t.1.1 t.1.2 t.2).

End Store.

(** ** Scoping of the notebook's names *)

Module Scoping.
Import Notebook.

(** Every statement reads only names that are defined when it runs:
    names of [env] or names bound by an earlier statement. *)
Fixpoint well_scoped (env : gset string) (prog : list stmt) : bool :=
  match prog with
  | [] => true
  | s :: rest =>
      bool_decide (Forall (λ x, x ∈ env) (reads s))
      && well_scoped (env ∪ list_to_set (binds s)) rest
  end.

(** The state after a list of statements ran without exception. *)
Definition after (pre : list stmt) (st : state) : state :=
  foldl (λ acc s, bind_targets s (issue s acc)) st pre.

(** The remote calls of the notebook up to the first drop. *)
Definition calls_before_failure : list remote :=
  [ Connect; RunCypher LoadNodes; RunCypher LoadRelationships;
    GraphProject; PipelineCreate; PipelineList; PipelineList;
    SelectFeatures; ConfigureSplit; AddLogisticRegression;
    ConfigureAutoTuning; TrainEstimate; Train; PredictMutate;
    StreamNodeProperty; AsNodes; WriteNodeProperties; Drop "model" ].

(** When a statement raises: while its callee and its arguments are
    evaluated, before its call goes out, or once the call is out. *)
Inductive phase := BeforeCall | AfterCall.

(** Running statements in order from position [i], telling an exception
    before the call from one after it.  A statement first evaluates its
    names, and stops the run at the first one that is not defined; when
    [raises] says [BeforeCall], it stops the run with an exception and
    its call does not go out; otherwise it issues its call, and stops
    the run with an exception when [raises] says [AfterCall]; otherwise
    it binds its targets. *)
Fixpoint run_phased (raises : nat → option phase) (i : nat)
    (prog : list stmt) (st : state) : state * outcome :=
  match prog with
  | [] => (st, Completed)
  | s :: rest =>
      match unbound st s with
      | Some x => (st, NameError x)
      | None =>
          match raises i with
          | Some BeforeCall => (st, Raised i)
          | Some AfterCall => (issue s st, Raised i)
          | None => run_phased raises (S i) rest (bind_targets s (issue s st))
          end
      end
  end.

(** How many statements have issued their call when statement [j]
    raises in phase [ph]. *)
Definition issued_at (ph : phase) (j : nat) : nat :=
  match ph with BeforeCall => j | AfterCall => S j end.

(** The oracle of [run] as one of [run_phased]: every exception counted
    after the call. *)
Definition after_call (raises : nat → bool) (j : nat) : option phase :=
  if raises j then Some AfterCall else None.

End Scoping.

(** A store that already holds an author, one paper and who wrote it;
    the paper is the one the first sample row describes. *)
Module StoreSamples.
Import Cypher Store.

Definition stocked : graph :=
  Graph [ Node 0 {[ "Author" ]} ∅; created 1 35 5 [0; 1; 0]%Z ]
        [ Rel 0 "WROTE" 1 ] 2.

(** The citations of the samples in another order, one of them twice. *)
Definition cites_shuffled : list csv_row :=
  [ ["114"]; ["35"; "887"]; ["40"; "35"]; ["35"; "40"]; ["40"; "35"] ].

(** The stocked store after the samples are loaded, one row held out. *)
Definition restocked : graph :=
  default empty_graph
    (load Samples.parse_int 1 Samples.content Samples.cites stocked).

(** The sample store after a second load of the same sources. *)
Definition reloaded : graph :=
  default empty_graph
    (load Samples.parse_int 2 Samples.content Samples.cites
          Samples.loaded_nodes).

End StoreSamples.

(** Closing a decidable closed goal by evaluation. *)
Ltac by_compute :=
  match goal with
  | |- ?P => apply (bool_decide_unpack P); vm_compute; exact I
  end.

(** * Facts *)

(** ** The label table *)

Module ConfigFacts.
Import Config.

Lemma SUBJECT_TO_ID_keys_NoDup : NoDup SUBJECT_TO_ID.*1.
Proof. by_compute. Qed.

Lemma subject_to_id_lookup (s : string) (c : Z) :
  subject_to_id !! s = Some c ↔ (s, c) ∈ SUBJECT_TO_ID.
Proof.
  unfold subject_to_id. symmetry.
  apply elem_of_list_to_map, SUBJECT_TO_ID_keys_NoDup.
Qed.

Lemma SUBJECT_TO_ID_entries (s : string) (c : Z) :
  (s, c) ∈ SUBJECT_TO_ID ↔
  (s = "Neural_Networks" ∧ c = 0%Z) ∨ (s = "Rule_Learning" ∧ c = 1%Z)
  ∨ (s = "Reinforcement_Learning" ∧ c = 2%Z)
  ∨ (s = "Probabilistic_Methods" ∧ c = 3%Z) ∨ (s = "Theory" ∧ c = 4%Z)
  ∨ (s = "Genetic_Algorithms" ∧ c = 5%Z) ∨ (s = "Case_Based" ∧ c = 6%Z).
Proof.
  unfold SUBJECT_TO_ID. rewrite !elem_of_cons, elem_of_nil.
  split; intros H; repeat destruct H as [H|H]; try done;
    first [ injection H as -> -> | destruct H as [-> ->] ]; tauto.
Qed.

Lemma subject_code_range (s : string) (c : Z) :
  subject_to_id !! s = Some c → (0 ≤ c ≤ 6)%Z.
Proof.
  rewrite subject_to_id_lookup, SUBJECT_TO_ID_entries.
  intros H; repeat destruct H as [H|H]; destruct H as [_ ->]; lia.
Qed.

(** C8. The label table is a bijection between the seven subject
    strings and the integers 0..6: it has seven entries, no two subjects
    share a code, the codes are exactly the integers from 0 to 6, and
    [id_to_subject] recovers the subject from its code. *)
Theorem subject_to_id_bijection :
  size subject_to_id = 7
  ∧ (∀ s1 s2 c, subject_to_id !! s1 = Some c →
                subject_to_id !! s2 = Some c → s1 = s2)
  ∧ (∀ c, (0 ≤ c ≤ 6)%Z ↔ ∃ s, subject_to_id !! s = Some c)
  ∧ (∀ s c, subject_to_id !! s = Some c ↔ id_to_subject c = Some s).
Proof.
  split_and!.
  - reflexivity.
  - intros s1 s2 c. rewrite !subject_to_id_lookup, !SUBJECT_TO_ID_entries.
    intros H1 H2.
    repeat destruct H1 as [H1|H1]; destruct H1 as [-> ->];
      repeat destruct H2 as [H2|H2]; destruct H2 as [-> H2];
      first [ reflexivity | discriminate H2 ].
  - intros c. split.
    + intros Hc.
      assert (c = 0 ∨ c = 1 ∨ c = 2 ∨ c = 3 ∨ c = 4 ∨ c = 5 ∨ c = 6)%Z
        as Hcases by lia.
      repeat destruct Hcases as [->|Hcases]; try subst c;
        eexists; apply subject_to_id_lookup, SUBJECT_TO_ID_entries; tauto.
    + intros [s Hs]. eauto using subject_code_range.
  - intros s c. rewrite subject_to_id_lookup, SUBJECT_TO_ID_entries. split.
    + intros H; repeat destruct H as [H|H]; destruct H as [-> ->]; reflexivity.
    + intros H.
      assert (0 ≤ c ≤ 6)%Z as Hc.
      { unfold id_to_subject in H.
        destruct (list_find _ _) as [[i [k v]]|] eqn:Hf; [|done].
        apply list_find_Some in Hf as (Hl & Hv & _). simpl in Hv. subst v.
        apply (subject_code_range k), subject_to_id_lookup.
        eapply list_elem_of_lookup_2, Hl. }
      assert (c = 0 ∨ c = 1 ∨ c = 2 ∨ c = 3 ∨ c = 4 ∨ c = 5 ∨ c = 6)%Z
        as Hcases by lia.
      repeat destruct Hcases as [->|Hcases]; try subst c;
        vm_compute in H; injection H as <-; tauto.
Qed.

End ConfigFacts.

(** ** The load queries *)

Module CypherFacts.
Import Config Cypher.

Lemma length_remove_dups_le {A} `{EqDecision A} (l : list A) :
  length (remove_dups l) ≤ length l.
Proof.
  induction l as [|x l IH]; simpl; [done|].
  destruct (decide_rel _ x l); simpl; lia.
Qed.

Lemma filter_none {A} (P : A → Prop) `{∀ x, Decision (P x)} (l : list A) :
  (∀ x, x ∈ l → ¬ P x) → filter P l = [].
Proof.
  intros Hno. apply elem_of_nil_inv. intros x [HP Hx]%list_elem_of_filter.
  by apply (Hno x).
Qed.

Lemma remove_label_idem (l : string) (n : node) :
  remove_label l (remove_label l n) = remove_label l n.
Proof.
  unfold remove_label. simpl. f_equal. apply set_eq. intros x.
  rewrite !elem_of_difference. tauto.
Qed.

Lemma set_label_idem (l : string) (n : node) :
  set_label l (set_label l n) = set_label l n.
Proof.
  unfold set_label. simpl. f_equal. apply set_eq. intros x.
  rewrite !elem_of_union. tauto.
Qed.

Lemma paper_props_extId e s f : paper_props e s f !! "extId" = Some (VInt e).
Proof. reflexivity. Qed.

Lemma paper_props_subject e s f : paper_props e s f !! "subject" = Some (VInt s).
Proof. reflexivity. Qed.

Lemma filter_imap_below {A B} (P : B → Prop) `{∀ y, Decision (P y)}
    (l : list A) (f : nat → A → B) (k : nat) :
  (∀ i x, l !! i = Some x → P (f i x) ↔ i < k) →
  filter P (imap f l) = imap f (take k l).
Proof.
  revert f k. induction l as [|x l IH]; intros f k HP.
  - by rewrite take_nil.
  - simpl. rewrite filter_cons. destruct (decide (P (f 0 x))) as [H0|H0].
    + apply (HP 0 x) in H0; [|done]. destruct k as [|k]; [lia|]. simpl. f_equal.
      apply IH. intros i y Hy. rewrite (HP (S i) y Hy). lia.
    + assert (k = 0) as ->.
      { destruct k; [done|]. destruct H0. apply (HP 0 x); [done|lia]. }
      rewrite (IH _ 0); [by rewrite take_0|].
      intros i y Hy. rewrite (HP (S i) y Hy). lia.
Qed.

Lemma filter_imap_above {A B} (P : B → Prop) `{∀ y, Decision (P y)}
    (l : list A) (f : nat → A → B) (k : nat) :
  (∀ i x, l !! i = Some x → P (f i x) ↔ k ≤ i) →
  length (filter P (imap f l)) = length l - k.
Proof.
  revert f k. induction l as [|x l IH]; intros f k HP; simpl in *.
  - done.
  - rewrite filter_cons. destruct (decide (P (f 0 x))) as [H0|H0].
    + apply (HP 0 x) in H0; [|done]. assert (k = 0) as -> by lia. simpl. f_equal.
      rewrite (IH _ 0); [lia|]. intros i y Hy. rewrite (HP (S i) y Hy). lia.
    + destruct k as [|k]; [destruct H0; apply (HP 0 x); [done|lia]|].
      apply IH. intros i y Hy. rewrite (HP (S i) y Hy). lia.
Qed.

Lemma held_out_unclassified (holdout i : nat) :
  "UnclassifiedPaper" ∈ held_out_labels holdout i ↔ i < holdout.
Proof.
  unfold held_out_labels. destruct (decide (i < holdout)).
  - split; [done|]. intros _. by apply elem_of_singleton.
  - split; [|lia]. intros [=]%elem_of_singleton.
Qed.

Lemma held_out_paper (holdout i : nat) :
  "Paper" ∈ held_out_labels holdout i ↔ holdout ≤ i.
Proof.
  unfold held_out_labels. destruct (decide (i < holdout)).
  - split; [|lia]. intros [=]%elem_of_singleton.
  - split; [lia|]. intros _. by apply elem_of_singleton.
Qed.

Section Facts.
Variable toInteger : string → option Z.

Lemma well_formed_bindings (content : list csv_row) :
  Forall (well_formed_row toInteger) content →
  ∃ ts, bind_row toInteger <$> content = binding_of <$> ts.
Proof.
  induction 1 as [|row content Hrow _ [ts IH]]; [by exists []|].
  destruct Hrow as ([e He] & [s Hs] & Hf).
  assert (∃ f, b_features (bind_row toInteger row) = Some <$> f) as [f Hfeat].
  { induction Hf as [|o os [z ->] _ [f ->]]; [by exists []|]. by exists (z :: f). }
  exists ((e, s, f) :: ts). rewrite !fmap_cons, IH. f_equal.
  destruct (bind_row toInteger row) as [e' s' f']; simpl in *.
  unfold binding_of; simpl. congruence.
Qed.

Lemma merge_paper_fresh (g : graph) (t : triple) :
  (∀ n, n ∈ nodes g → node_props n !! "extId" ≠ Some (VInt t.1.1)) →
  merge_paper g (binding_of t)
  = Some (Graph (nodes g ++ [fresh_paper (next_id g) 0 t]) (rels g)
                (S (next_id g)), [next_id g]).
Proof.
  intros Hfresh. unfold merge_paper, binding_of; simpl.
  rewrite mapM_fmap_Some by done. simpl.
  rewrite filter_none.
  - unfold fresh_paper. by rewrite Nat.add_0_r.
  - intros n Hn Hm. apply bool_decide_unpack in Hm as (_ & He & _).
    by apply (Hfresh n).
Qed.

Lemma merge_papers_fresh (ts : list triple) (g : graph) :
  NoDup ts.*1.*1 →
  (∀ n t, n ∈ nodes g → t ∈ ts → node_props n !! "extId" ≠ Some (VInt t.1.1)) →
  merge_papers g (binding_of <$> ts)
  = Some (Graph (nodes g ++ imap (fresh_paper (next_id g)) ts) (rels g)
                (next_id g + length ts),
          seq (next_id g) (length ts)).
Proof.
  revert g. induction ts as [|t ts IH]; intros g Hnd Hfresh.
  - simpl. rewrite app_nil_r, Nat.add_0_r. by destruct g.
  - rewrite !fmap_cons in Hnd. apply NoDup_cons in Hnd as [Hnew Hnd].
    rewrite fmap_cons. simpl.
    rewrite merge_paper_fresh by (intros n Hn; apply Hfresh; [done|left]).
    simpl. rewrite IH; [| done |].
    + simpl. do 3 f_equal.
      * rewrite <-app_assoc. do 2 f_equal.
        apply imap_ext. intros i x _. unfold fresh_paper. simpl. f_equal. lia.
      * lia.
    + simpl. intros n t' [Hn|Hn]%elem_of_app Ht'.
      * apply Hfresh; [done|by right].
      * apply list_elem_of_singleton in Hn as ->. unfold fresh_paper; simpl. rewrite paper_props_extId.
        intros [= He]. apply Hnew. rewrite He.
        apply list_elem_of_fmap. exists t'.1. split; [done|].
        apply list_elem_of_fmap. by exists t'.
Qed.

(** Label updates over a table. *)
Lemma update_nodes_foldl (f : node → node) (ps : list nat) (g : graph) :
  (∀ n, node_id (f n) = node_id n) → (∀ n, f (f n) = f n) →
  foldl (λ acc p, update_node f p acc) g ps
  = Graph (relabel f ps <$> nodes g) (rels g) (next_id g).
Proof.
  intros Hid Hidem. revert g. induction ps as [|p ps IH]; intros g.
  - simpl. destruct g as [ns rs nx]; simpl. f_equal.
    rewrite <-(list_fmap_id ns) at 1. apply list_fmap_ext. intros _ n _.
    unfold relabel. rewrite decide_False; [done|]. apply not_elem_of_nil.
  - simpl. rewrite IH. unfold update_node; simpl. f_equal.
    rewrite <-list_fmap_compose. apply list_fmap_ext. intros _ n _. simpl.
    unfold relabel. destruct (decide (node_id n = p)) as [->|Hne].
    + rewrite Hid. rewrite (decide_True (P := _ ∈ _ :: _)) by left.
      by destruct (decide _).
    + destruct (decide (node_id n ∈ ps)) as [Hin|Hnin].
      * by rewrite decide_True by (by right).
      * rewrite decide_False; [done|]. by intros [?|?]%elem_of_cons.
Qed.

Lemma load_nodes_fresh (holdout : nat) (content : list csv_row) (ts : list triple) :
  bind_row toInteger <$> content = binding_of <$> ts →
  NoDup ts.*1.*1 →
  load_nodes toInteger holdout content empty_graph
  = Some (Graph (imap (loaded_paper (holdout `min` length ts)) ts) [] (length ts)).
Proof.
  intros Hb Hnd. unfold load_nodes. rewrite Hb, merge_papers_fresh; [|done|].
  - simpl. rewrite take_seq.
    rewrite (update_nodes_foldl (remove_label "Paper"));
      [| done | apply remove_label_idem].
    rewrite (update_nodes_foldl (set_label "UnclassifiedPaper"));
      [| done | apply set_label_idem].
    simpl. do 2 f_equal. rewrite <-list_fmap_compose, fmap_imap.
    apply imap_ext. intros i t Hi. apply lookup_lt_Some in Hi.
    unfold relabel, fresh_paper, loaded_paper, held_out_labels; simpl.
    destruct (decide (i ∈ seq 0 (holdout `min` length ts))) as [Hin|Hnin];
      simpl.
    + rewrite decide_True by done.
      rewrite decide_True by (apply elem_of_seq in Hin; lia).
      unfold set_label, remove_label; simpl. by f_equal.
    + rewrite decide_False by done.
      by rewrite decide_False by (rewrite elem_of_seq in Hnin; lia).
  - simpl. intros n t Hn. by apply elem_of_nil in Hn.
Qed.

(** Relationships. *)
Lemma merge_cites_nodes (g : graph) (nm : nat * nat) :
  nodes (merge_cites g nm) = nodes g.
Proof. unfold merge_cites. by destruct (decide _). Qed.

Lemma merge_cites_length (g : graph) (nm : nat * nat) :
  length (rels (merge_cites g nm)) ≤ S (length (rels g)).
Proof.
  unfold merge_cites. destruct (decide _); simpl; [lia|].
  rewrite length_app. simpl. lia.
Qed.

Lemma foldl_merge_cites_nodes (l : list (nat * nat)) (g : graph) :
  nodes (foldl merge_cites g l) = nodes g.
Proof.
  revert g. induction l as [|nm l IH]; intros g; simpl; [done|].
  by rewrite IH, merge_cites_nodes.
Qed.

Lemma foldl_merge_cites_length (l : list (nat * nat)) (g : graph) :
  length (rels (foldl merge_cites g l)) ≤ length (rels g) + length l.
Proof.
  revert g. induction l as [|nm l IH]; intros g; simpl; [lia|].
  specialize (IH (merge_cites g nm)).
  pose proof (merge_cites_length g nm). lia.
Qed.

(** With identifiers that are unique among the nodes, a field selects at
    most one node. *)
Lemma filter_extId_unique (x : option Z) (ns : list node) :
  NoDup ((λ n, node_props n !! "extId") <$> ns) →
  length (filter (λ n, extId_is x n) ns) ≤ 1.
Proof.
  induction ns as [|n ns IH]; [intros _; rewrite filter_nil; simpl; lia|].
  rewrite fmap_cons. intros [Hnew Hnd]%NoDup_cons.
  rewrite filter_cons. destruct (decide _) as [Hn|]; [|by apply IH].
  rewrite filter_none; [simpl; lia|]. intros m Hm Hx. apply Hnew.
  apply list_elem_of_fmap. exists m. split; [|done].
  unfold extId_is in Hn, Hx. destruct x as [z|]; [|done].
  destruct (node_props n !! "extId") as [[z1| |]|]; try done.
  destruct (node_props m !! "extId") as [[z2| |]|]; try done.
  apply bool_decide_unpack in Hn, Hx. congruence.
Qed.

Lemma match_row_unique (g : graph) (row : csv_row) :
  NoDup ((λ n, node_props n !! "extId") <$> nodes g) →
  length (match_row toInteger g row) ≤ 1.
Proof.
  intros Hnd. unfold match_row.
  pose proof (filter_extId_unique (row !! 0 ≫= toInteger) _ Hnd) as H0.
  pose proof (filter_extId_unique (row !! 1 ≫= toInteger) _ Hnd) as H1.
  destruct (filter _ (nodes g)) as [|n [|??]]; simpl in *; [lia| |lia].
  destruct (filter _ (nodes g)) as [|m [|??]]; simpl in *; lia.
Qed.

Lemma match_rows_length (g : graph) (cites : list csv_row) :
  NoDup ((λ n, node_props n !! "extId") <$> nodes g) →
  length (cites ≫= match_row toInteger g) ≤ length cites.
Proof.
  intros Hnd. induction cites as [|row cites IH]; [done|].
  rewrite bind_cons, length_app. simpl.
  pose proof (match_row_unique g row Hnd). lia.
Qed.

Lemma match_row_unresolved (g : graph) (row : csv_row) :
  both_resolve toInteger g row = false → match_row toInteger g row = [].
Proof.
  intros Hno. apply bool_decide_eq_false in Hno. unfold match_row.
  destruct (filter (λ n, extId_is (row !! 0 ≫= toInteger) n) (nodes g))
    as [|n ns] eqn:Hn; [done|].
  destruct (filter (λ m, extId_is (row !! 1 ≫= toInteger) m) (nodes g))
    as [|m ms] eqn:Hm.
  { simpl. clear. induction ns; simpl; auto. }
  destruct Hno. split; apply Exists_exists.
  - exists n. apply and_comm, (list_elem_of_filter (λ n, extId_is _ n)).
    rewrite Hn. left.
  - exists m. apply and_comm, (list_elem_of_filter (λ n, extId_is _ n)).
    rewrite Hm. left.
Qed.

Lemma match_row_resolved (g : graph) (row : csv_row) :
  both_resolve toInteger g row = true → match_row toInteger g row ≠ [].
Proof.
  intros [[n [Hn Hx]]%Exists_exists [m [Hm Hy]]%Exists_exists]%bool_decide_eq_true.
  unfold match_row.
  assert (n ∈ filter (λ n, extId_is (row !! 0 ≫= toInteger) n) (nodes g)) as Hn'
    by by apply list_elem_of_filter.
  assert (m ∈ filter (λ m, extId_is (row !! 1 ≫= toInteger) m) (nodes g)) as Hm'
    by by apply list_elem_of_filter.
  destruct (filter _ (nodes g)) as [|n' ns]; [by apply elem_of_nil in Hn'|].
  destruct (filter _ (nodes g)) as [|m' ms]; [by apply elem_of_nil in Hm'|].
  done.
Qed.

Lemma distinct_ids_triples (content : list csv_row) (ts : list triple) :
  bind_row toInteger <$> content = binding_of <$> ts →
  distinct_ids toInteger content → NoDup ts.*1.*1.
Proof.
  intros Hb Hnd. unfold distinct_ids in Hnd.
  rewrite (list_fmap_compose (bind_row toInteger) b_extId) in Hnd.
  rewrite Hb, <-list_fmap_compose in Hnd.
  rewrite <-!list_fmap_compose.
  apply (NoDup_fmap_1 Some). by rewrite <-list_fmap_compose.
Qed.

(** The database a load of distinct, convertible rows produces. *)
Lemma load_shape (holdout : nat) (content cites : list csv_row) :
  Forall (well_formed_row toInteger) content →
  distinct_ids toInteger content →
  holdout ≤ length content →
  ∃ ts g, length ts = length content
    ∧ bind_row toInteger <$> content = binding_of <$> ts
    ∧ load toInteger holdout content cites empty_graph = Some g
    ∧ nodes g = imap (loaded_paper holdout) ts
    ∧ length (rels g) ≤ length cites.
Proof.
  intros Hwf Hnd Hk.
  destruct (well_formed_bindings content Hwf) as [ts Hb].
  pose proof (distinct_ids_triples content ts Hb Hnd) as Hts.
  assert (length ts = length content) as Hlen.
  { by rewrite <-(length_fmap binding_of), <-Hb, length_fmap. }
  exists ts. unfold load. rewrite (load_nodes_fresh holdout content ts Hb Hts).
  rewrite Nat.min_l by lia. simpl. unfold load_relationships.
  eexists. split_and!; [done|done|reflexivity|by rewrite foldl_merge_cites_nodes|].
  set (g1 := Graph (imap (loaded_paper holdout) ts) [] (length ts)).
  assert (NoDup ((λ n, node_props n !! "extId") <$> nodes g1)) as Hids.
  { simpl. rewrite fmap_imap.
    replace (imap _ ts) with ((λ z, Some (VInt z)) <$> ts.*1.*1).
    - apply NoDup_fmap_2; [by intros ?? [=]|done].
    - rewrite <-!list_fmap_compose, <-imap_const. by apply imap_ext. }
  pose proof (foldl_merge_cites_length (cites ≫= match_row toInteger g1) g1) as Hr.
  pose proof (match_rows_length g1 cites Hids) as Hm.
  simpl in Hr. lia.
Qed.

(** The nodes of a loaded database carry pairwise distinct identifiers. *)
Lemma loaded_ids_unique (holdout : nat) (content cites : list csv_row) :
  Forall (well_formed_row toInteger) content →
  distinct_ids toInteger content →
  holdout ≤ length content →
  ∃ g, load toInteger holdout content cites empty_graph = Some g
    ∧ NoDup (node_id <$> nodes g).
Proof.
  intros Hwf Hnd Hk.
  destruct (load_shape holdout content cites Hwf Hnd Hk)
    as (ts & g & _ & _ & Hload & Hnodes & _).
  exists g. split; [done|]. rewrite Hnodes, fmap_imap.
  unfold compose. simpl.
  rewrite (imap_seq_0 ts (λ i, i)), list_fmap_id. apply NoDup_seq.
Qed.

Lemma held_out_ids (holdout : nat) (ts : list triple) :
  holdout ≤ length ts →
  node_id <$> filter (λ n, has_label "UnclassifiedPaper" n)
                     (imap (loaded_paper holdout) ts)
  = seq 0 holdout.
Proof.
  intros Hk. rewrite (filter_imap_below _ _ _ holdout).
  - rewrite fmap_imap. unfold compose. simpl.
    rewrite (imap_seq_0 _ (λ i, i)), list_fmap_id, length_take. f_equal. lia.
  - intros i t _. unfold has_label. simpl.
    rewrite bool_decide_spec. apply held_out_unclassified.
Qed.

(** C1, as amended.  Loading content rows that all convert and carry
    pairwise distinct identifiers into an empty database, with a
    hold-out count no larger than the number of rows, succeeds and
    creates one node per row, numbered in arrival order; the first
    [holdout] of them carry only the unlabeled category and the others
    only the labeled one; every node stores the integer code of its
    subject; and the citation rows create at most one relationship
    each, so at most [length cites] edges, directed or undirected. *)
Theorem load_counts (holdout : nat) (content cites : list csv_row) :
  Forall (well_formed_row toInteger) content →
  distinct_ids toInteger content →
  holdout ≤ length content →
  ∃ g, load toInteger holdout content cites empty_graph = Some g
    ∧ length (nodes g) = length content
    ∧ (∀ i row, content !! i = Some row →
         ∃ n code, nodes g !! i = Some n
           ∧ node_id n = i
           ∧ node_labels n = held_out_labels holdout i
           ∧ b_subject (bind_row toInteger row) = Some code
           ∧ node_props n !! "subject" = Some (VInt code))
    ∧ length (nodes_with "UnclassifiedPaper" g) = holdout
    ∧ length (nodes_with "Paper" g) = length content - holdout
    ∧ length (rels g) ≤ length cites
    ∧ length (undirected_edges g) ≤ length cites.
Proof.
  intros Hwf Hnd Hk.
  destruct (load_shape holdout content cites Hwf Hnd Hk)
    as (ts & g & Hlen & Hb & Hload & Hnodes & Hrels).
  exists g. unfold nodes_with. rewrite Hnodes. split_and!; [done| | | | |done|].
  - by rewrite length_imap.
  - intros i row Hrow.
    assert (∃ t, ts !! i = Some t ∧ bind_row toInteger row = binding_of t)
      as (t & Ht & Hbt).
    { apply (f_equal (λ l, l !! i)) in Hb. rewrite !list_lookup_fmap, Hrow in Hb.
      destruct (ts !! i) as [t|]; [|discriminate Hb].
      exists t. split; [done|]. by apply (inj Some). }
    exists (loaded_paper holdout i t), t.1.2.
    rewrite list_lookup_imap, Ht. split_and!; try done.
    exact (f_equal b_subject Hbt).
  - rewrite <-(length_fmap node_id), held_out_ids, length_seq; [done|lia].
  - rewrite <-Hlen. apply filter_imap_above.
    intros i t _. unfold has_label. simpl.
    rewrite bool_decide_spec. apply held_out_paper.
  - unfold undirected_edges.
    pose proof (length_remove_dups_le (unordered <$> rels g)) as Hd.
    rewrite length_fmap in Hd. lia.
Qed.

(** C4.  A citation row whose two identifiers are not both the
    identifier of a node creates no relationship and raises no error:
    alone it leaves the database as it is, and inside a source the load
    succeeds with the result it has without that row, so the rows that
    resolve create what they create without it. *)
Theorem unresolved_row_skipped (g : graph) (before after : list csv_row)
    (row : csv_row) :
  both_resolve toInteger g row = false →
  load_relationships toInteger [row] g = Some g
  ∧ is_Some (load_relationships toInteger (before ++ row :: after) g)
  ∧ load_relationships toInteger (before ++ row :: after) g
    = load_relationships toInteger (before ++ after) g.
Proof.
  intros Hno%match_row_unresolved. unfold load_relationships. split_and!.
  - by rewrite bind_singleton, Hno.
  - by eexists.
  - by rewrite !bind_app, bind_cons, Hno.
Qed.

End Facts.

(** Witness of [load_counts]: the sample content, two rows held out. *)
Lemma load_counts_witness :
  ∃ g, load Samples.parse_int 2 Samples.content Samples.cites empty_graph
       = Some g
    ∧ length (nodes g) = 3
    ∧ length (nodes_with "UnclassifiedPaper" g) = 2
    ∧ length (nodes_with "Paper" g) = 1
    ∧ length (undirected_edges g) ≤ 5.
Proof.
  destruct (load_counts Samples.parse_int 2 Samples.content Samples.cites)
    as (g & Hload & Hn & _ & Hu & Hp & _ & He);
    [by_compute | by_compute | simpl; lia |].
  exists g. split_and!; assumption.
Defined.

(** The claim of C1 as first stated fails on a repeated row: three
    content rows, the last two equal, load as two nodes. *)
Lemma load_repeated_row :
  ∃ g, load Samples.parse_int 1
            [Samples.paper_a; Samples.paper_b; Samples.paper_b] [] empty_graph
       = Some g
    ∧ length [Samples.paper_a; Samples.paper_b; Samples.paper_b] = 3
    ∧ length (nodes g) = 2.
Proof. eexists. split; [by vm_compute|]. split; reflexivity. Qed.

(** Two rows that share an identifier but differ elsewhere load as two
    nodes, and one citation row between them then creates four
    relationships, three of them distinct as undirected edges. *)
Lemma load_shared_identifier :
  ∃ g, load Samples.parse_int 0 [Samples.paper_a; Samples.paper_a']
            [["35"; "35"]] empty_graph
       = Some g
    ∧ length (nodes g) = 2
    ∧ length (rels g) = 4
    ∧ length (undirected_edges g) = 3.
Proof. eexists. split; [by vm_compute|]. split_and!; reflexivity. Qed.

(** A row whose subject is not in the table makes the load fail. *)
Lemma load_unknown_subject :
  load Samples.parse_int 1 [Samples.paper_a; ["77"; "Robotics"; "0"]] []
       empty_graph
  = None.
Proof. reflexivity. Qed.

(** Witness of [unresolved_row_skipped]: identifier 887 is not loaded. *)
Lemma unresolved_row_skipped_witness :
  load_relationships Samples.parse_int [["35"; "887"]] Samples.loaded_nodes
  = Some Samples.loaded_nodes
  ∧ is_Some (load_relationships Samples.parse_int
               ([["35"; "40"]] ++ ["35"; "887"] :: [["40"; "35"]])
               Samples.loaded_nodes)
  ∧ load_relationships Samples.parse_int
      ([["35"; "40"]] ++ ["35"; "887"] :: [["40"; "35"]]) Samples.loaded_nodes
    = load_relationships Samples.parse_int
        ([["35"; "40"]] ++ [["40"; "35"]]) Samples.loaded_nodes.
Proof.
  apply (unresolved_row_skipped Samples.parse_int Samples.loaded_nodes
           [["35"; "40"]] [["40"; "35"]] ["35"; "887"]).
  by vm_compute.
Defined.

End CypherFacts.

(** ** Prediction and write-back *)

Module EngineFacts.
Import Config Cypher Engine CypherFacts.

Lemma in_categories_singleton (l : string) (n : node) :
  in_categories [l] n = true ↔ l ∈ node_labels n.
Proof.
  unfold in_categories. rewrite bool_decide_eq_true, Exists_cons, Exists_nil.
  tauto.
Qed.

Lemma project_node_Some (spec : list (string * list string)) (n p : node) :
  project_node spec n = Some p →
  node_id p = node_id n
  ∧ ∀ l, l ∈ node_labels p ↔ l ∈ node_labels n ∧ l ∈ spec.*1.
Proof.
  unfold project_node. destruct (decide _) as [|Hsel]; [done|].
  intros [= <-]. simpl. split; [done|]. intros l.
  rewrite elem_of_list_to_set, list_elem_of_fmap. split.
  - intros [[l' ps] [-> [Hl Hin]%list_elem_of_filter]]. simpl in *.
    split; [done|]. apply list_elem_of_fmap. by exists (l', ps).
  - intros [Hl [[l' ps] [-> Hin]]%list_elem_of_fmap]. exists (l', ps).
    split; [done|]. by apply list_elem_of_filter.
Qed.

Lemma project_node_None (spec : list (string * list string)) (n : node) :
  project_node spec n = None → ∀ l, l ∈ spec.*1 → l ∉ node_labels n.
Proof.
  unfold project_node. destruct (decide _) as [Hsel|]; [|done].
  intros _ l [[l' ps] [-> Hin]]%list_elem_of_fmap Hl. simpl in *.
  assert ((l', ps) ∈ filter (λ cp, cp.1 ∈ node_labels n) spec) as Hf
    by by apply list_elem_of_filter.
  rewrite Hsel in Hf. by apply elem_of_nil in Hf.
Qed.

Lemma unclassified_projected : "UnclassifiedPaper" ∈ cora_projection.*1.
Proof. by_compute. Qed.

Section Prediction.
Variable m : trained_model.

Local Abbreviation mutated := (Engine.mutated m).
Local Abbreviation in_memory := (Engine.in_memory m).


(** What the in-memory graph holds for a database node. *)
Lemma in_memory_elem (ns : list node) (q : node) :
  q ∈ in_memory ns →
  ∃ n p, n ∈ ns ∧ (project_node cora_projection n = Some p)
       ∧ node_id q = node_id n
       ∧ node_labels q = node_labels p
       ∧ (("UnclassifiedPaper" ∈ node_labels n ∧ q = mutated p)
          ∨ (("UnclassifiedPaper" ∉ node_labels n) ∧ q = p)).
Proof.
  unfold in_memory, predict_mutate.
  intros (p & -> & (n & Hn & Hp)%list_elem_of_omap)%list_elem_of_fmap.
  exists n, p. destruct (project_node_Some _ _ _ Hp) as [Hid Hl].
  destruct (in_categories _ p) eqn:Hc.
  - apply in_categories_singleton, Hl in Hc as [Hc _]. simpl. eauto 10.
  - simpl. split_and!; try done. right. split; [|done].
    intros HU. apply not_true_iff_false in Hc. apply Hc.
    apply in_categories_singleton, Hl. split; [done|apply unclassified_projected].
Qed.

Lemma in_memory_held_out (ns : list node) (n : node) :
  n ∈ ns → "UnclassifiedPaper" ∈ node_labels n →
  ∃ p, project_node cora_projection n = Some p ∧ mutated p ∈ in_memory ns.
Proof.
  intros Hn HU. destruct (project_node cora_projection n) as [p|] eqn:Hp.
  - exists p. split; [done|].
    unfold in_memory, predict_mutate. apply list_elem_of_fmap. exists p.
    split; [|apply list_elem_of_omap; eauto].
    destruct (project_node_Some _ _ _ Hp) as [_ Hl].
    rewrite (proj2 (in_categories_singleton _ p)); [done|].
    apply Hl. split; [done|apply unclassified_projected].
  - by destruct (project_node_None _ _ Hp _ unclassified_projected).
Qed.






Lemma NoDup_fmap_eq {A B} (f : A → B) (l : list A) (x y : A) :
  NoDup (f <$> l) → x ∈ l → y ∈ l → f x = f y → x = y.
Proof.
  intros Hnd [i Hi]%list_elem_of_lookup [j Hj]%list_elem_of_lookup Hf.
  assert (i = j) as ->.
  { apply (NoDup_lookup (f <$> l) i j (f x) Hnd).
    - by rewrite list_lookup_fmap, Hi.
    - by rewrite list_lookup_fmap, Hj, Hf. }
  congruence.
Qed.

Lemma copy_predicted_class (src dst : gmap string value) :
  copy_props ["predictedClass"] src dst
  = match src !! "predictedClass" with
    | Some v => <[ "predictedClass" := v ]> dst
    | None => dst
    end.
Proof. reflexivity. Qed.

Lemma write_node_frame (G : list node) (n : node) :
  let n' := write_node G ["predictedClass"] ["UnclassifiedPaper"] n in
  node_id n' = node_id n ∧ node_labels n' = node_labels n
  ∧ ∀ k, k ≠ "predictedClass" → node_props n' !! k = node_props n !! k.
Proof.
  unfold write_node. destruct (list_find _ G) as [[j q]|]; [|done].
  destruct (in_categories _ q); [|done]. cbv zeta. split_and!; try done.
  intros k Hk. cbn [node_props]. rewrite copy_predicted_class.
  destruct (node_props q !! "predictedClass"); [|done].
  by rewrite lookup_insert_ne.
Qed.

Lemma write_node_labeled (ns : list node) (n : node) :
  NoDup (node_id <$> ns) → n ∈ ns →
  "UnclassifiedPaper" ∉ node_labels n →
  write_node (in_memory ns) ["predictedClass"] ["UnclassifiedPaper"] n = n.
Proof.
  intros Hnd Hn HU. unfold write_node.
  destruct (list_find _ (in_memory ns)) as [[j q]|] eqn:Hfind; [|done].
  apply list_find_Some in Hfind as (Hq%list_elem_of_lookup_2 & Hid & _).
  destruct (in_memory_elem ns q Hq) as (n0 & p & Hn0 & Hp & Hid0 & Hl & Hcase).
  assert (n0 = n) as -> by (apply (NoDup_fmap_eq node_id ns); congruence).
  destruct (in_categories _ q) eqn:Hc; [|done].
  apply in_categories_singleton in Hc. rewrite Hl in Hc.
  by apply (project_node_Some _ _ _ Hp) in Hc as [? _].
Qed.

Lemma write_node_held_out (ns : list node) (n : node) :
  NoDup (node_id <$> ns) → n ∈ ns →
  "UnclassifiedPaper" ∈ node_labels n →
  ∃ c, node_props (write_node (in_memory ns) ["predictedClass"]
                              ["UnclassifiedPaper"] n) !! "predictedClass"
       = Some (VInt c).
Proof.
  intros Hnd Hn HU. unfold write_node.
  destruct (in_memory_held_out ns n Hn HU) as (p & Hp & Hin).
  destruct (project_node_Some _ _ _ Hp) as [Hidp Hlp].
  destruct (list_find _ (in_memory ns)) as [[j q]|] eqn:Hfind.
  - apply list_find_Some in Hfind as (Hq%list_elem_of_lookup_2 & Hid & _).
    destruct (in_memory_elem ns q Hq) as (n0 & p0 & Hn0 & Hp0 & Hid0 & Hl & Hcase).
    assert (n0 = n) as -> by (apply (NoDup_fmap_eq node_id ns); congruence).
    destruct Hcase as [[_ ->]|[? _]]; [|done].
    rewrite (proj2 (in_categories_singleton _ (mutated p0))).
    + cbn [node_props]. rewrite copy_predicted_class. unfold mutated at 1.
      cbn [node_props]. rewrite lookup_insert_eq, lookup_insert_eq. eauto.
    + simpl. apply (project_node_Some _ _ _ Hp0).
      split; [done|apply unclassified_projected].
  - apply list_find_None in Hfind. rewrite Forall_forall in Hfind.
    by destruct (Hfind _ Hin).
Qed.

End Prediction.

Section Claims.
Variable toInteger : string → option Z.
Variable m : trained_model.


(** C10.  The write-back copies only the predicted class and only to
    nodes of the unlabeled category: relationships, node identifiers and
    categories stay as they are, every property other than the predicted
    class keeps its value on every node (so the predicted probabilities
    never reach the database), a node outside the unlabeled category is
    unchanged, and a node of the unlabeled category receives its
    predicted class. *)
Theorem write_back_frame (g : graph) :
  NoDup (node_id <$> nodes g) →
  rels (write_back m g) = rels g
  ∧ length (nodes (write_back m g)) = length (nodes g)
  ∧ ∀ i n, nodes g !! i = Some n →
      ∃ n', nodes (write_back m g) !! i = Some n'
        ∧ node_id n' = node_id n
        ∧ node_labels n' = node_labels n
        ∧ (∀ k, k ≠ "predictedClass" → node_props n' !! k = node_props n !! k)
        ∧ node_props n' !! "predictedProbabilities"
          = node_props n !! "predictedProbabilities"
        ∧ (("UnclassifiedPaper" ∉ node_labels n) → n' = n)
        ∧ ("UnclassifiedPaper" ∈ node_labels n →
           ∃ c, node_props n' !! "predictedClass" = Some (VInt c)).
Proof.
  intros Hnd. split_and!; [done|apply length_fmap|].
  intros i n Hi. eexists. split.
  { unfold write_back, write. simpl. by rewrite list_lookup_fmap, Hi. }
  pose proof (list_elem_of_lookup_2 _ _ _ Hi) as Hn.
  change (predict_mutate m _ _ _ (project cora_projection g))
    with (in_memory m (nodes g)).
  destruct (write_node_frame (in_memory m (nodes g)) n) as (Hid & Hl & Hk).
  split_and!; try done.
  - by apply Hk.
  - by apply write_node_labeled.
  - by apply write_node_held_out.
Qed.

End Claims.


(** Witness of [write_back_frame]: the sample database. *)
Lemma write_back_frame_witness :
  rels (write_back Samples.constant_model Samples.loaded) = rels Samples.loaded
  ∧ length (nodes (write_back Samples.constant_model Samples.loaded))
    = length (nodes Samples.loaded).
Proof.
  destruct (write_back_frame Samples.constant_model Samples.loaded)
    as (Hrels & Hlen & _); [by_compute|].
  split; assumption.
Defined.


(** A hold-out count above the number of rows holds out every row, and
    the stream has as many rows as there are nodes. *)
Lemma prediction_short_content :
  ∃ g, load Samples.parse_int HOLDOUT_NODES Samples.content Samples.cites
            empty_graph
       = Some g
    ∧ ∀ m, length (predicted m g) = 3.
Proof. eexists. split; [by vm_compute|]. intros m. by vm_compute. Qed.

(** After a second run of the node load the stream has a row for each
    of the four nodes then held out. *)
Lemma prediction_after_rerun :
  ∃ g, load_nodes Samples.parse_int 2 Samples.content Samples.loaded_nodes
       = Some g
    ∧ ∀ m, length (predicted m g) = 4.
Proof. eexists. split; [by vm_compute|]. intros m. by vm_compute. Qed.

End EngineFacts.

(** ** The notebook as a program *)

Module NotebookFacts.
Import Notebook.

Lemma unbound_read (st : state) (s : stmt) (x : string) :
  x ∈ reads s → x ∉ env st → is_Some (unbound st s).
Proof.
  intros Hx Hst. unfold unbound.
  destruct (list_find _ (reads s)) as [[j y]|] eqn:Hfind; [by eexists|].
  apply list_find_None in Hfind. rewrite Forall_forall in Hfind.
  by destruct (Hfind x Hx).
Qed.

Lemma omap_call_cons (s : stmt) (prog : list stmt) :
  omap call (s :: prog) = option_list (call s) ++ omap call prog.
Proof. simpl. by destruct (call s). Qed.

(** A statement that reads a name no earlier statement binds stops the
    run: whatever raises, the run does not complete and issues only
    calls of the statements before it. *)
Lemma run_stops_at_unbound (raises : nat → bool) (x : string) (s : stmt)
    (post pre : list stmt) (i : nat) (st : state) :
  x ∈ reads s → x ∉ env st → Forall (λ s', x ∉ binds s') pre →
  (run raises i (pre ++ s :: post) st).2 ≠ Completed
  ∧ trace (run raises i (pre ++ s :: post) st).1 ⊆ trace st ++ omap call pre.
Proof.
  intros Hx. revert i st. induction pre as [|s' pre IH]; intros i st Hst Hpre.
  - simpl. destruct (unbound_read st s x Hx Hst) as [y ->]. simpl.
    split; [done|]. by rewrite app_nil_r.
  - apply Forall_cons in Hpre as [Hs' Hpre]. rewrite omap_call_cons. simpl.
    destruct (unbound st s') as [y|].
    { split; [done|]. intros c Hc. apply elem_of_app. by left. }
    destruct (raises i).
    + simpl. split; [done|]. rewrite app_assoc.
      intros c Hc. apply elem_of_app. by left.
    + destruct (IH (S i) (bind_targets s' (issue s' st))) as [Hout Htr];
        [|done|].
      { simpl. rewrite elem_of_union, elem_of_list_to_set. tauto. }
      split; [done|]. simpl in Htr. by rewrite <-app_assoc in Htr.
Qed.

(** A statement that raises stops the run: only calls of statements up
    to it are issued. *)
Lemma run_stops_at_raise (raises : nat → bool) (s : stmt)
    (post pre : list stmt) (i : nat) (st : state) :
  raises (i + length pre) = true →
  (run raises i (pre ++ s :: post) st).2 ≠ Completed
  ∧ trace (run raises i (pre ++ s :: post) st).1
    ⊆ trace st ++ omap call (pre ++ [s]).
Proof.
  revert i st. induction pre as [|s' pre IH]; intros i st Hr.
  - simpl in *. rewrite Nat.add_0_r in Hr. rewrite Hr.
    destruct (unbound st s) as [y|]; simpl.
    + split; [done|]. intros c Hc. apply elem_of_app. by left.
    + split; [done|]. by destruct (call s).
  - rewrite <-!app_comm_cons, omap_call_cons. simpl.
    destruct (unbound st s') as [y|].
    { split; [done|]. intros c Hc. apply elem_of_app. by left. }
    destruct (raises i).
    + simpl. split; [done|]. rewrite app_assoc.
      intros c Hc. apply elem_of_app. by left.
    + destruct (IH (S i) (bind_targets s' (issue s' st))) as [Hout Htr].
      { rewrite <-Hr. f_equal. simpl. lia. }
      split; [done|]. simpl in Htr. by rewrite <-app_assoc in Htr.
Qed.

(** When [selectFeatures] raises, no training call is issued. *)
Lemma failed_selection_stops_training (raises : nat → bool) :
  raises 22 = true →
  (Train ∉ trace (run raises 0 notebook initial).1)
  ∧ (TrainEstimate ∉ trace (run raises 0 notebook initial).1).
Proof.
  intros Hr.
  destruct (run_stops_at_raise raises (invoke ["node_pipeline"] SelectFeatures [])
              (drop 23 notebook) (take 22 notebook) 0 initial Hr) as [_ Htr].
  change (take 22 notebook ++ _ :: drop 23 notebook) with notebook in Htr.
  assert (Forall (λ c, c ∉ trace initial
                         ++ omap call (take 22 notebook
                                       ++ [invoke ["node_pipeline"] SelectFeatures []]))
                 [Train; TrainEstimate]) as Hall by by_compute.
  rewrite Forall_forall in Hall.
  split; intros Hin; apply Htr in Hin; revert Hin; apply Hall.
  - apply list_elem_of_here.
  - apply list_elem_of_further, list_elem_of_here.
Qed.

(** The clean-up cell run on its own, in any state where [model_fastrp]
    is not defined: it does not complete and issues at most the drop of
    the model. *)
Lemma cleanup_cell_stops (raises : nat → bool) (i : nat) (st : state) :
  "model_fastrp" ∉ env st →
  (run raises i cleanup st).2 ≠ Completed
  ∧ trace (run raises i cleanup st).1 ⊆ trace st ++ [Drop "model"].
Proof.
  intros Hst.
  apply (run_stops_at_unbound raises "model_fastrp"
           (invoke ["model_fastrp"] (Drop "model_fastrp") [])
           (drop 2 cleanup) [invoke ["model"] (Drop "model") []] i st);
    [apply list_elem_of_here | done | by_compute].
Qed.

Lemma notebook_split :
  notebook
  = take 37 notebook ++ invoke ["model_fastrp"] (Drop "model_fastrp") []
      :: drop 38 notebook.
Proof. reflexivity. Qed.

(** C9.  Run top to bottom, the notebook never completes and never
    issues the calls that follow the first drop of the clean-up (the
    other drops, the deletion of the rows, the closing of the session),
    whatever else raises; when nothing raises, the run ends right after
    the drop of the model with a name error on [model_fastrp]; and no
    statement of the notebook binds [model_fastrp] or
    [node_pipeline_fastrp]. *)
Theorem cleanup_never_completes :
  (∀ raises,
     (run raises 0 notebook initial).2 ≠ Completed
     ∧ ∀ c, c ∈ later_cleanup → (c ∉ trace (run raises 0 notebook initial).1))
  ∧ (run nothing_raises 0 notebook initial).2 = NameError "model_fastrp"
  ∧ last (trace (run nothing_raises 0 notebook initial).1) = Some (Drop "model")
  ∧ Forall (λ s, ("model_fastrp" ∉ binds s)
                 ∧ ("node_pipeline_fastrp" ∉ binds s)) notebook.
Proof.
  split_and!.
  - intros raises. rewrite notebook_split.
    destruct (run_stops_at_unbound raises "model_fastrp"
                (invoke ["model_fastrp"] (Drop "model_fastrp") [])
                (drop 38 notebook) (take 37 notebook) 0 initial)
      as [Hout Htr].
    + apply list_elem_of_here.
    + apply not_elem_of_empty.
    + by_compute.
    + split; [done|].
      assert (Forall (λ c, c ∉ trace initial ++ omap call (take 37 notebook))
                     later_cleanup) as Hall by by_compute.
      rewrite Forall_forall in Hall.
      intros c Hc Hin. by apply (Hall c Hc), Htr.
  - by vm_compute.
  - by vm_compute.
  - by_compute.
Qed.

End NotebookFacts.

(** ** The arguments and the recorded outputs of the notebook *)

Module ScenarioFacts.
Import Config Cypher Engine.

(** The notebook's split arguments lie in the ranges the engine accepts. *)
Lemma notebook_split_in_range :
  (0 < Pipeline.testFraction Pipeline.splitConfig < 1)%Q
  ∧ 1 ≤ Pipeline.validationFolds Pipeline.splitConfig.
Proof. split; [split; reflexivity|simpl; lia]. Qed.

(** The recorded write-back names the predicted class alone and counts
    one value per held-out node. *)
Lemma recorded_write_back :
  Recorded.nodeProperties Recorded.written = ["predictedClass"]
  ∧ Recorded.propertiesWritten Recorded.written = HOLDOUT_NODES.
Proof. split; reflexivity. Qed.

(** The recorded prediction table has one row per held-out node, keyed
    by the identifiers 0 to 9, with classes among the codes of the
    table. *)
Lemma recorded_predictions :
  length Recorded.predicted = HOLDOUT_NODES
  ∧ Recorded.predicted.*1 = seq 0 HOLDOUT_NODES
  ∧ Forall (λ r, (0 ≤ r.2 ≤ 6)%Z) Recorded.predicted.
Proof. split_and!; [reflexivity|reflexivity|by_compute]. Qed.

End ScenarioFacts.

(** ** The load in any store, and the clean-up query *)

Module LoadFacts.
Import Config Cypher Store ConfigFacts CypherFacts.

(** What one [MERGE] does: it binds the nodes that match and changes
    nothing, or creates one node under the next free identifier. *)
Lemma merge_paper_inv (g g1 : graph) (b : paper_binding) (ps : list nat) :
  merge_paper g b = Some (g1, ps) →
  ∃ e s f, b_extId b = Some e ∧ b_subject b = Some s
    ∧ mapM id (b_features b) = Some f
    ∧ ((g1 = g ∧ ps ≠ []
        ∧ ps = node_id <$> filter (λ n, matches_paper e s f n) (nodes g))
       ∨ (filter (λ n, matches_paper e s f n) (nodes g) = []
          ∧ g1 = Graph (nodes g ++ [created (next_id g) e s f]) (rels g)
                       (S (next_id g))
          ∧ ps = [next_id g])).
Proof.
  unfold merge_paper. intros H.
  destruct (b_extId b) as [e|]; [|done].
  destruct (b_subject b) as [s|]; [|done].
  destruct (mapM id (b_features b)) as [f|]; [|done]. simpl in H.
  exists e, s, f. split_and!; try done.
  destruct (filter _ (nodes g)) as [|n hits] eqn:Hf.
  - right. by injection H as <- <-.
  - left. by injection H as <- <-.
Qed.

(** The nodes a list of bindings adds to a store, and the table it
    leaves. *)
Lemma merge_papers_inv (bs : list paper_binding) (g g1 : graph) (ps : list nat) :
  merge_papers g bs = Some (g1, ps) →
  ∃ new, nodes g1 = nodes g ++ new
    ∧ rels g1 = rels g
    ∧ next_id g1 = next_id g + length new
    ∧ length new ≤ length bs
    ∧ node_id <$> new = seq (next_id g) (length new)
    ∧ Forall (λ n, ∃ b e s f, b ∈ bs ∧ b_extId b = Some e ∧ b_subject b = Some s
                   ∧ n = created (node_id n) e s f) new
    ∧ Forall (λ p, ∃ n, n ∈ nodes g1 ∧ node_id n = p
                        ∧ "Paper" ∈ node_labels n) ps.
Proof.
  revert g g1 ps. induction bs as [|b bs IH]; intros g g1 ps; simpl.
  - intros [= <- <-]. exists []. rewrite app_nil_r, Nat.add_0_r.
    split_and!; by try constructor.
  - intros H. destruct (merge_paper g b) as [[g2 ps2]|] eqn:Hb; [|done].
    simpl in H.
    destruct (merge_papers g2 bs) as [[g3 ps3]|] eqn:Hbs; [|done].
    injection H as <- <-.
    destruct (IH _ _ _ Hbs) as (new & Hn & Hr & Hx & Hl & Hids & Hnew & Hps).
    assert (Forall (λ n, ∃ b' e s f, b' ∈ b :: bs ∧ b_extId b' = Some e
                     ∧ b_subject b' = Some s ∧ n = created (node_id n) e s f) new)
      as Hnew'.
    { eapply Forall_impl; [exact Hnew|]. intros n (b' & e & s & f & ? & ?).
      exists b', e, s, f. split; [by right|done]. }
    destruct (merge_paper_inv _ _ _ _ Hb)
      as (e & s & f & He & Hs & Hf & [(-> & _ & ->)|(Hnone & -> & ->)]).
    + exists new. split_and!; try done; [lia|]. apply Forall_app. split; [|done].
      apply Forall_forall.
      intros p (n & -> & [Hm Hin]%list_elem_of_filter)%list_elem_of_fmap.
      exists n. split_and!; [rewrite Hn; apply elem_of_app; by left|done|].
      by apply bool_decide_unpack in Hm as [? _].
    + cbn [nodes rels next_id] in Hn, Hr, Hx, Hids.
      exists (created (next_id g) e s f :: new).
      split_and!.
      * by rewrite Hn, <-app_assoc.
      * done.
      * cbn [length]. lia.
      * cbn [length]. lia.
      * rewrite fmap_cons. cbn [length seq]. by rewrite Hids.
      * constructor; [|done]. exists b, e, s, f. split_and!; [left|done..].
      * constructor; [|done]. exists (created (next_id g) e s f).
        split_and!; [|done|].
        2: { change ("Paper" ∈ ({[ "Paper" ]} : gset string)).
             by apply elem_of_singleton. }
        rewrite Hn. apply elem_of_app. left. apply elem_of_app. right. left.
Qed.

Lemma hold_out_id (held : list nat) (n : node) :
  node_id (hold_out held n) = node_id n.
Proof. unfold hold_out. by destruct (decide _). Qed.

Lemma hold_out_props (held : list nat) (n : node) :
  node_props (hold_out held n) = node_props n.
Proof. unfold hold_out. by destruct (decide _). Qed.

Lemma hold_out_ids (held : list nat) (ns : list node) :
  node_id <$> (hold_out held <$> ns) = node_id <$> ns.
Proof.
  rewrite <-list_fmap_compose. apply list_fmap_ext. intros _ n _.
  apply hold_out_id.
Qed.

(** What [MERGE (n)-[:CITES]->(m)] over a table of pairs leaves: the
    relationships that were there, followed by those of the pairs that
    had none, each once. *)
Lemma foldl_merge_cites_shape (l : list (nat * nat)) (g : graph) :
  ∃ added,
    foldl merge_cites g l = Graph (nodes g) (rels g ++ added) (next_id g)
    ∧ NoDup added
    ∧ ∀ r, r ∈ added ↔ (r ∉ rels g) ∧ ∃ nm, nm ∈ l ∧ r = cites_rel nm.
Proof.
  revert g. induction l as [|nm l IH]; intros g.
  - exists []. rewrite app_nil_r. split_and!; [by destruct g|constructor|].
    intros r. split; [by intros ?%elem_of_nil|].
    by intros [_ (nm & ?%elem_of_nil & _)].
  - simpl. unfold merge_cites at 2. fold (cites_rel nm).
    destruct (decide (cites_rel nm ∈ rels g)) as [Hin|Hnin].
    + destruct (IH g) as (added & -> & Hnd & Hchar). exists added.
      split_and!; try done. intros r. rewrite Hchar. split.
      * intros [Hr (nm' & ? & ->)]. split; [done|]. exists nm'. split; [by right|done].
      * intros [Hr (nm' & [->|?]%elem_of_cons & ->)]; [done|]. eauto.
    + destruct (IH (Graph (nodes g) (rels g ++ [cites_rel nm]) (next_id g)))
        as (added & -> & Hnd & Hchar). cbn [nodes rels next_id] in *.
      exists (cites_rel nm :: added). rewrite <-app_assoc.
      split_and!; [done| |].
      * constructor; [|done]. rewrite Hchar. intros [Hr _]. apply Hr.
        apply elem_of_app. right. left.
      * intros r. rewrite elem_of_cons, Hchar, elem_of_app, list_elem_of_singleton.
        split.
        -- intros [->|[Hr (nm' & ? & ->)]].
           ++ split; [done|]. exists nm. split; [left|done].
           ++ split; [tauto|]. exists nm'. split; [by right|done].
        -- intros [Hr (nm' & [->|?]%elem_of_cons & ->)]; [by left|].
           destruct (decide (cites_rel nm' = cites_rel nm)) as [->|Hne]; [by left|].
           right. split; [tauto|eauto].
Qed.

Lemma foldl_merge_cites_present (l : list (nat * nat)) (g : graph) :
  (∀ nm, nm ∈ l → cites_rel nm ∈ rels g) → foldl merge_cites g l = g.
Proof.
  induction l as [|nm l IH]; intros Hall; [done|]. simpl.
  unfold merge_cites at 2. fold (cites_rel nm).
  rewrite decide_True by (apply Hall; left).
  apply IH. intros nm' ?. apply Hall. by right.
Qed.

Lemma filter_ids_length (P : node → Prop) `{∀ n, Decision (P n)}
    (ids : list nat) (ns : list node) :
  NoDup (node_id <$> ns) →
  (∀ n, n ∈ ns → P n → node_id n ∈ ids) →
  length (filter P ns) ≤ length ids.
Proof.
  intros Hnd Hin. rewrite <-(length_fmap node_id). apply submseteq_length.
  apply NoDup_submseteq.
  - eapply sublist_NoDup; [exact Hnd|]. apply fmap_sublist, sublist_filter.
  - intros i (n & -> & [? ?]%list_elem_of_filter)%list_elem_of_fmap. eauto.
Qed.

Lemma filter_split_length {A} (P Q : A → Prop)
    `{∀ x, Decision (P x)} `{∀ x, Decision (Q x)} (l : list A) :
  Forall (λ x, (P x ∧ ¬ Q x) ∨ (Q x ∧ ¬ P x)) l →
  length (filter P l) + length (filter Q l) = length l.
Proof.
  induction 1 as [|x l Hx _ IH]; [done|]. rewrite !filter_cons.
  destruct (decide (P x)), (decide (Q x)); simpl; try lia; tauto.
Qed.

Lemma paper_shaped_one_category (n : node) :
  paper_shaped n →
  (has_label "UnclassifiedPaper" n ∧ ¬ has_label "Paper" n)
  ∨ (has_label "Paper" n ∧ ¬ has_label "UnclassifiedPaper" n).
Proof.
  intros [[Hl|Hl] _]; unfold has_label; rewrite Hl; [right|left];
    (split; [by apply bool_decide_pack, elem_of_singleton|]);
    by intros [=]%bool_decide_unpack%elem_of_singleton.
Qed.

Section Load.
Variable toInteger : string → option Z.

Lemma match_row_nodes (g g' : graph) (row : csv_row) :
  nodes g = nodes g' → match_row toInteger g row = match_row toInteger g' row.
Proof. unfold match_row. by intros ->. Qed.

(** When a field selects a node: it converts to the integer the node
    stores as [extId]. *)
Lemma extId_is_spec (x : option Z) (n : node) :
  extId_is x n = true
  ↔ ∃ z, x = Some z ∧ node_props n !! "extId" = Some (VInt z).
Proof.
  unfold extId_is. split.
  - destruct x as [z|]; [|done].
    destruct (node_props n !! "extId") as [[z'| |]|]; try done.
    intros ->%bool_decide_eq_true. eauto.
  - intros (z & -> & ->). by apply bool_decide_eq_true.
Qed.

Lemma elem_of_match_row (g : graph) (row : csv_row) (nm : nat * nat) :
  nm ∈ match_row toInteger g row
  ↔ ∃ n m a b, n ∈ nodes g ∧ m ∈ nodes g
      ∧ row !! 0 ≫= toInteger = Some a ∧ row !! 1 ≫= toInteger = Some b
      ∧ node_props n !! "extId" = Some (VInt a)
      ∧ node_props m !! "extId" = Some (VInt b)
      ∧ nm = (node_id n, node_id m).
Proof.
  unfold match_row. rewrite list_elem_of_bind. split.
  - intros (n & (m & ->%list_elem_of_singleton & [Hm Hmin]%list_elem_of_filter)%list_elem_of_bind
              & [Hn Hnin]%list_elem_of_filter).
    apply Is_true_true, extId_is_spec in Hn as (a & Ha & Hna).
    apply Is_true_true, extId_is_spec in Hm as (b & Hb & Hmb).
    exists n, m, a, b. by split_and!.
  - intros (n & m & a & b & Hn & Hm & Ha & Hb & Hna & Hmb & ->).
    exists n. split.
    + apply list_elem_of_bind. exists m. split; [left|].
      apply list_elem_of_filter. split; [|done].
      apply Is_true_true, extId_is_spec. eauto.
    + apply list_elem_of_filter. split; [|done].
      apply Is_true_true, extId_is_spec. eauto.
Qed.

(** The store [load_nodes] leaves: the nodes it found and the nodes it
    created, in that order, those of the limited table held out. *)
Lemma load_nodes_inv (holdout : nat) (content : list csv_row) (g g' : graph) :
  load_nodes toInteger holdout content g = Some g' →
  ∃ new held,
    nodes g' = hold_out held <$> (nodes g ++ new)
    ∧ rels g' = rels g
    ∧ next_id g' = next_id g + length new
    ∧ length new ≤ length content
    ∧ length held ≤ holdout
    ∧ node_id <$> new = seq (next_id g) (length new)
    ∧ Forall (λ n, ∃ row e s f, row ∈ content
                   ∧ b_extId (bind_row toInteger row) = Some e
                   ∧ b_subject (bind_row toInteger row) = Some s
                   ∧ n = created (node_id n) e s f) new
    ∧ Forall (λ p, ∃ n, n ∈ nodes g ++ new ∧ node_id n = p
                        ∧ "Paper" ∈ node_labels n) held.
Proof.
  unfold load_nodes. intros H.
  destruct (merge_papers g (bind_row toInteger <$> content))
    as [[g1 ps]|] eqn:Hm; [|done].
  simpl in H. injection H as <-.
  destruct (merge_papers_inv _ _ _ _ Hm)
    as (new & Hn & Hr & Hx & Hl & Hids & Hnew & Hps).
  exists new, (take holdout ps).
  rewrite (update_nodes_foldl (remove_label "Paper"));
    [| done | apply remove_label_idem].
  rewrite (update_nodes_foldl (set_label "UnclassifiedPaper"));
    [| done | apply set_label_idem].
  cbn [nodes rels next_id]. rewrite length_fmap in Hl. split_and!; try done.
  - rewrite <-list_fmap_compose, Hn. apply list_fmap_ext. intros _ n _.
    unfold compose, relabel, hold_out.
    destruct (decide (node_id n ∈ take holdout ps)) as [Hin|Hnin]; simpl.
    + by rewrite decide_True.
    + by rewrite decide_False.
  - rewrite length_take. lia.
  - eapply Forall_impl; [exact Hnew|].
    intros n (b & e & s & f & (row & -> & Hrow)%list_elem_of_fmap & ?).
    by exists row, e, s, f.
  - rewrite <-Hn. by apply Forall_take.
Qed.

Lemma load_inv (holdout : nat) (content cites : list csv_row) (g g' : graph) :
  load toInteger holdout content cites g = Some g' →
  ∃ g1, load_nodes toInteger holdout content g = Some g1
    ∧ g' = foldl merge_cites g1 (cites ≫= match_row toInteger g1).
Proof.
  unfold load, load_relationships. intros H.
  destruct (load_nodes toInteger holdout content g) as [g1|]; [|done].
  exists g1. split; [done|]. by injection H.
Qed.

Lemma load_nodes_well_formed (holdout : nat) (content : list csv_row)
    (g g' : graph) :
  well_formed g → load_nodes toInteger holdout content g = Some g' →
  well_formed g'.
Proof.
  intros (Hnd & Hlt & Hrels) Hload.
  destruct (load_nodes_inv _ _ _ _ Hload)
    as (new & held & Hn & Hr & Hx & _ & _ & Hids & _ & _).
  assert (node_ids g' = node_ids g ++ seq (next_id g) (length new)) as Hids'.
  { unfold node_ids. by rewrite Hn, hold_out_ids, fmap_app, Hids. }
  rewrite Forall_forall in Hlt.
  unfold well_formed. rewrite Hids', Hr, Hx. split_and!.
  - apply NoDup_app. split_and!; [done| |apply NoDup_seq].
    intros i (n & -> & Hin)%list_elem_of_fmap Hseq%elem_of_seq.
    specialize (Hlt n Hin). lia.
  - rewrite Hn. apply Forall_fmap, Forall_forall. intros n Hin. simpl.
    rewrite hold_out_id. apply elem_of_app in Hin as [Hin|Hin].
    + specialize (Hlt n Hin). lia.
    + assert (node_id n ∈ seq (next_id g) (length new)) as Hs%elem_of_seq
        by (rewrite <-Hids; by apply list_elem_of_fmap_2).
      lia.
  - eapply Forall_impl; [exact Hrels|]. intros r [? ?].
    split; apply elem_of_app; by left.
Qed.

Lemma merge_cites_well_formed (l : list (nat * nat)) (g : graph) :
  well_formed g →
  (∀ nm, nm ∈ l → nm.1 ∈ node_ids g ∧ nm.2 ∈ node_ids g) →
  well_formed (foldl merge_cites g l).
Proof.
  intros (Hnd & Hlt & Hrels) Hl.
  destruct (foldl_merge_cites_shape l g) as (added & -> & _ & Hchar).
  split_and!; try done. cbn [rels]. apply Forall_app. split; [done|].
  apply Forall_forall. intros r [_ (nm & Hnm & ->)]%Hchar. by apply Hl.
Qed.

Lemma match_rows_ids (g : graph) (cites : list csv_row) (nm : nat * nat) :
  nm ∈ cites ≫= match_row toInteger g →
  nm.1 ∈ node_ids g ∧ nm.2 ∈ node_ids g.
Proof.
  intros (row & Hnm & _)%list_elem_of_bind.
  apply elem_of_match_row in Hnm as (n & m & a & b & Hn & Hm & _ & _ & _ & _ & ->).
  split; by apply (list_elem_of_fmap_2 node_id).
Qed.

(** X2.  The load keeps the store well formed: node identifiers stay
    pairwise distinct and below the next free one, and every
    relationship, old or new, joins two nodes of the store. *)
Theorem load_keeps_store_well_formed (holdout : nat)
    (content cites : list csv_row) (g g' : graph) :
  well_formed g →
  load toInteger holdout content cites g = Some g' →
  well_formed g'.
Proof.
  intros Hwf (g1 & Hn & ->)%load_inv.
  apply merge_cites_well_formed; [by eapply load_nodes_well_formed|].
  apply match_rows_ids.
Qed.

(** X3.  The load leaves what it finds alone: every node of a
    well-formed store keeps its place, its identifier and all its
    properties, a node that is not of the labeled category is not
    changed at all, and the relationships that were there stay, in
    order, before the new ones. *)
Theorem load_preserves_existing (holdout : nat)
    (content cites : list csv_row) (g g' : graph) :
  well_formed g →
  load toInteger holdout content cites g = Some g' →
  (∀ i n, nodes g !! i = Some n →
     ∃ n', nodes g' !! i = Some n'
       ∧ node_id n' = node_id n
       ∧ node_props n' = node_props n
       ∧ (("Paper" ∉ node_labels n) → n' = n))
  ∧ rels g `prefix_of` rels g'.
Proof.
  intros (Hnd & Hlt & _) (g1 & Hload & ->)%load_inv.
  destruct (load_nodes_inv _ _ _ _ Hload)
    as (new & held & Hn & Hr & _ & _ & _ & Hids & _ & Hheld).
  destruct (foldl_merge_cites_shape (cites ≫= match_row toInteger g1) g1)
    as (added & -> & _ & _).
  cbn [nodes rels]. split; [|rewrite Hr; by apply prefix_app_r].
  intros i n Hi. exists (hold_out held n).
  rewrite Hn, list_lookup_fmap, lookup_app_l by (by eapply lookup_lt_Some).
  rewrite Hi, hold_out_id, hold_out_props. split_and!; try done.
  intros HP. unfold hold_out. rewrite decide_False; [done|]. intros Hin.
  rewrite Forall_forall in Hheld. rewrite Forall_forall in Hlt.
  destruct (Hheld _ Hin) as (n0 & Hn0 & Hid & HP0).
  assert (n0 = n) as ->; [|done].
  assert (n ∈ nodes g) as Hng by by eapply list_elem_of_lookup_2.
  apply elem_of_app in Hn0 as [Hn0|Hn0].
  - apply (EngineFacts.NoDup_fmap_eq node_id (nodes g)); done.
  - assert (node_id n0 ∈ seq (next_id g) (length new)) as Hs%elem_of_seq
      by (rewrite <-Hids; by apply list_elem_of_fmap_2).
    specialize (Hlt n Hng). lia.
Qed.

Lemma held_out_shaped (held : list nat) (n : node) :
  paper_shaped n → paper_shaped (hold_out held n).
Proof.
  intros [Hl Hp]. split; [|by rewrite hold_out_props].
  unfold hold_out. destruct (decide _); [|done]. right.
  unfold set_label, remove_label. cbn [node_labels].
  destruct Hl as [->| ->]; reflexivity.
Qed.

Lemma load_nodes_shaped (holdout : nat) (content : list csv_row) (g g' : graph) :
  Forall paper_shaped (nodes g) →
  load_nodes toInteger holdout content g = Some g' →
  Forall paper_shaped (nodes g').
Proof.
  intros Hg Hload.
  destruct (load_nodes_inv _ _ _ _ Hload)
    as (new & held & -> & _ & _ & _ & _ & _ & Hnew & _).
  apply Forall_fmap, Forall_app. split.
  - eapply Forall_impl; [exact Hg|]. intros n. apply held_out_shaped.
  - eapply Forall_impl; [exact Hnew|].
    intros n (row & e & s & f & _ & _ & Hs & ->). apply held_out_shaped.
    split; [by left|]. exists e, s, f. split; [done|].
    simpl in Hs. destruct (row !! 1) as [subject|]; [|done].
    by apply (subject_code_range subject).
Qed.

(** X4.  Every node the load leaves in a store of paper nodes is a paper
    node: it carries exactly one of the two categories, never both and
    never neither, and exactly the three properties of the query, its
    subject being one of the integer codes 0..6 of the table. *)
Theorem load_shapes_nodes (holdout : nat)
    (content cites : list csv_row) (g g' : graph) :
  Forall paper_shaped (nodes g) →
  load toInteger holdout content cites g = Some g' →
  Forall paper_shaped (nodes g').
Proof.
  intros Hg (g1 & Hload & ->)%load_inv.
  rewrite foldl_merge_cites_nodes. by eapply load_nodes_shaped.
Qed.

(** X5.  Whatever the rows, a load into an empty database creates at
    most one node per content row and holds out at most [holdout] of
    them, and every node it creates is of exactly one of the two
    categories. *)
Theorem load_bounds (holdout : nat) (content cites : list csv_row) (g : graph) :
  load toInteger holdout content cites empty_graph = Some g →
  length (nodes g) ≤ length content
  ∧ length (nodes_with "UnclassifiedPaper" g) ≤ holdout
  ∧ length (nodes_with "UnclassifiedPaper" g) + length (nodes_with "Paper" g)
    = length (nodes g).
Proof.
  intros (g1 & Hload & ->)%load_inv. unfold nodes_with.
  rewrite foldl_merge_cites_nodes.
  pose proof (load_nodes_shaped _ _ empty_graph _ (Forall_nil_2 _) Hload)
    as Hshaped.
  destruct (load_nodes_inv _ _ _ _ Hload)
    as (new & held & Hn & _ & _ & Hlen & Hheld & Hids & Hnew & _).
  cbn [nodes empty_graph app] in Hn. split_and!.
  - by rewrite Hn, length_fmap.
  - etransitivity; [|exact Hheld].
    apply (filter_ids_length (λ n, has_label "UnclassifiedPaper" n)).
    + rewrite Hn, hold_out_ids, Hids. apply NoDup_seq.
    + rewrite Hn. intros n' (n & -> & Hin)%list_elem_of_fmap HU.
      rewrite hold_out_id. unfold hold_out in HU.
      destruct (decide (node_id n ∈ held)) as [|Hout]; [done|].
      rewrite Forall_forall in Hnew.
      destruct (Hnew n Hin) as (row & e & s & f & _ & _ & _ & Hcr).
      rewrite Hcr in HU. apply bool_decide_unpack in HU.
      change ("UnclassifiedPaper" ∈ ({[ "Paper" ]} : gset string)) in HU.
      by apply elem_of_singleton in HU.
  - apply filter_split_length.
    eapply Forall_impl; [exact Hshaped|]. apply paper_shaped_one_category.
Qed.

(** X6.  A hold-out count beyond the content holds out everything: for
    convertible rows with distinct identifiers loaded into an empty
    database, the unlabeled nodes number the smaller of the hold-out
    count and the row count, and the labeled ones the rest, none when
    the count reaches the number of rows. *)
Theorem load_counts_any_holdout (holdout : nat) (content cites : list csv_row) :
  Forall (well_formed_row toInteger) content →
  distinct_ids toInteger content →
  ∃ g, load toInteger holdout content cites empty_graph = Some g
    ∧ length (nodes g) = length content
    ∧ length (nodes_with "UnclassifiedPaper" g) = holdout `min` length content
    ∧ length (nodes_with "Paper" g) = length content - holdout.
Proof.
  intros Hwf Hnd.
  destruct (well_formed_bindings toInteger content Hwf) as [ts Hb].
  pose proof (distinct_ids_triples toInteger content ts Hb Hnd) as Hts.
  assert (length ts = length content) as Hlen.
  { by rewrite <-(length_fmap binding_of), <-Hb, length_fmap. }
  unfold load, load_relationships.
  rewrite (load_nodes_fresh toInteger holdout content ts Hb Hts). simpl.
  eexists. split; [reflexivity|]. unfold nodes_with.
  rewrite foldl_merge_cites_nodes. cbn [nodes]. rewrite Hlen. split_and!.
  - by rewrite length_imap.
  - rewrite <-(length_fmap node_id), held_out_ids, length_seq; [done|lia].
  - rewrite (filter_imap_above _ _ _ (holdout `min` length content)); [lia|].
    intros i t _. unfold has_label. simpl.
    rewrite bool_decide_spec. apply held_out_paper.
Qed.

(** The store [load_relationships] leaves. *)
Lemma load_relationships_shape (cites : list csv_row) (g : graph) :
  ∃ added,
    load_relationships toInteger cites g
    = Some (Graph (nodes g) (rels g ++ added) (next_id g))
    ∧ NoDup added
    ∧ ∀ r, r ∈ added
        ↔ (r ∉ rels g)
          ∧ ∃ row n m a b, row ∈ cites ∧ n ∈ nodes g ∧ m ∈ nodes g
              ∧ row !! 0 ≫= toInteger = Some a
              ∧ row !! 1 ≫= toInteger = Some b
              ∧ node_props n !! "extId" = Some (VInt a)
              ∧ node_props m !! "extId" = Some (VInt b)
              ∧ r = Rel (node_id n) "CITES" (node_id m).
Proof.
  unfold load_relationships.
  destruct (foldl_merge_cites_shape (cites ≫= match_row toInteger g) g)
    as (added & -> & Hnd & Hchar).
  exists added. split_and!; try done. intros r. rewrite Hchar.
  apply and_iff_compat_l. split.
  - intros (nm & (row & Hnm & Hrow)%list_elem_of_bind & ->).
    apply elem_of_match_row in Hnm
      as (n & m & a & b & ? & ? & ? & ? & ? & ? & ->).
    by exists row, n, m, a, b.
  - intros (row & n & m & a & b & ? & ? & ? & ? & ? & ? & ? & ->).
    exists (node_id n, node_id m). split; [|done].
    apply list_elem_of_bind. exists row. split; [|done].
    apply elem_of_match_row. by exists n, m, a, b.
Qed.

(** X7.  The citation load adds exactly the cited pairs that resolve and
    have no relationship yet: it leaves the nodes and the relationships
    it finds as they are, appends the new relationships after them
    without repeating any, and a relationship is new exactly when it was
    not there and some row names, by their external identifiers, the
    node it starts at and the node it ends at. *)
Theorem load_relationships_adds_cited_pairs (cites : list csv_row) (g : graph) :
  ∃ added,
    load_relationships toInteger cites g
    = Some (Graph (nodes g) (rels g ++ added) (next_id g))
    ∧ NoDup added
    ∧ ∀ r, r ∈ added
        ↔ (r ∉ rels g)
          ∧ ∃ row n m a b, row ∈ cites ∧ n ∈ nodes g ∧ m ∈ nodes g
              ∧ row !! 0 ≫= toInteger = Some a
              ∧ row !! 1 ≫= toInteger = Some b
              ∧ node_props n !! "extId" = Some (VInt a)
              ∧ node_props m !! "extId" = Some (VInt b)
              ∧ r = Rel (node_id n) "CITES" (node_id m).
Proof. apply load_relationships_shape. Qed.

Lemma match_rows_nodes (cites : list csv_row) (g g' : graph) :
  nodes g = nodes g' →
  cites ≫= match_row toInteger g = cites ≫= match_row toInteger g'.
Proof.
  intros Hn. induction cites as [|row cites IH]; [done|].
  by rewrite !bind_cons, IH, (match_row_nodes g g' row Hn).
Qed.

Lemma merged_pairs_present (l : list (nat * nat)) (g : graph) (nm : nat * nat) :
  nm ∈ l → cites_rel nm ∈ rels (foldl merge_cites g l).
Proof.
  intros Hnm. destruct (foldl_merge_cites_shape l g) as (added & -> & _ & Hchar).
  cbn [rels]. apply elem_of_app.
  destruct (decide (cites_rel nm ∈ rels g)); [by left|].
  right. apply Hchar. eauto.
Qed.

(** X8.  Running the citation load again changes nothing: every pair it
    would merge already has its relationship. *)
Theorem load_relationships_idempotent (cites : list csv_row) (g : graph) :
  load_relationships toInteger cites g ≫= load_relationships toInteger cites
  = load_relationships toInteger cites g.
Proof.
  unfold load_relationships. simpl. f_equal.
  set (l := cites ≫= match_row toInteger g).
  rewrite <-(match_rows_nodes cites g (foldl merge_cites g l))
    by (by rewrite foldl_merge_cites_nodes).
  apply foldl_merge_cites_present. intros nm. apply merged_pairs_present.
Qed.

(** X9.  The order of the citation rows and their repetition do not
    matter: two sources with the same rows leave the same nodes and the
    same relationships, up to the order in which these were created. *)
Theorem load_relationships_same_rows (cites cites' : list csv_row) (g : graph) :
  cites ⊆ cites' → cites' ⊆ cites →
  ∃ g1 g2, load_relationships toInteger cites g = Some g1
    ∧ load_relationships toInteger cites' g = Some g2
    ∧ nodes g1 = nodes g2
    ∧ rels g1 ≡ₚ rels g2.
Proof.
  intros H12 H21.
  destruct (load_relationships_shape cites g) as (added & -> & Hnd & Hchar).
  destruct (load_relationships_shape cites' g) as (added' & -> & Hnd' & Hchar').
  eexists _, _. split_and!; try done. cbn [rels].
  apply Permutation_app_head, NoDup_Permutation; [done..|].
  intros r. rewrite Hchar, Hchar'. apply and_iff_compat_l.
  split; intros (row & n & m & a & b & Hrow & H); exists row, n, m, a, b;
    (split; [auto|done]).
Qed.

End Load.

(** *** The clean-up query *)

Lemma filter_all {A} (P : A → Prop) `{∀ x, Decision (P x)} (l : list A) :
  Forall P l → filter P l = l.
Proof.
  induction 1 as [|x l Hx _ IH]; [done|].
  by rewrite filter_cons, decide_True, IH.
Qed.

Lemma paper_shaped_loaded_row (n : node) : paper_shaped n → loaded_row n.
Proof.
  intros [[Hl|Hl] _]; unfold loaded_row, has_label; rewrite Hl;
    apply orb_True; [left|right]; by apply bool_decide_pack, elem_of_singleton.
Qed.

Lemma delete_rows_all (g : graph) :
  Forall (λ n, loaded_row n) (nodes g) →
  Forall (λ r, rel_start r ∈ node_ids g ∧ rel_end r ∈ node_ids g) (rels g) →
  delete_rows g = Graph [] [] (next_id g).
Proof.
  intros Hall Hrels. unfold delete_rows. rewrite (filter_all _ _ Hall). f_equal.
  - apply filter_none. intros n Hn Hno. rewrite Forall_forall in Hall.
    by apply Hno, Hall.
  - apply filter_none. intros r Hr [Hs _]. rewrite Forall_forall in Hrels.
    by destruct (Hrels r Hr) as [? _].
Qed.

Section Cleanup.
Variable toInteger : string → option Z.

(** X10.  The clean-up query undoes the load of an empty database:
    whatever rows were loaded, it leaves no node and no relationship
    behind. *)
Theorem delete_rows_after_load (holdout : nat)
    (content cites : list csv_row) (g : graph) :
  load toInteger holdout content cites empty_graph = Some g →
  nodes (delete_rows g) = [] ∧ rels (delete_rows g) = [].
Proof.
  intros (g1 & Hload & ->)%load_inv.
  assert (well_formed empty_graph) as Hwf0.
  { split_and!; constructor. }
  pose proof (load_nodes_well_formed toInteger _ _ _ _ Hwf0 Hload) as Hwf1.
  pose proof (merge_cites_well_formed _ g1 Hwf1 (match_rows_ids toInteger g1 cites))
    as (_ & _ & Hrels).
  rewrite delete_rows_all; [done| |done].
  rewrite foldl_merge_cites_nodes.
  eapply Forall_impl;
    [exact (load_nodes_shaped toInteger _ _ empty_graph _ (Forall_nil_2 _) Hload)|].
  apply paper_shaped_loaded_row.
Qed.

End Cleanup.

(** X11.  The clean-up keeps a well-formed store well formed: with the
    nodes it deletes go all their relationships, so none is left without
    one of its ends. *)
Theorem delete_rows_keeps_store_well_formed (g : graph) :
  well_formed g → well_formed (delete_rows g).
Proof.
  intros (Hnd & Hlt & Hrels). unfold well_formed, node_ids, delete_rows.
  cbn [nodes rels next_id]. split_and!.
  - eapply sublist_NoDup; [exact Hnd|]. apply fmap_sublist, sublist_filter.
  - apply Forall_forall. intros n [_ Hn]%list_elem_of_filter.
    rewrite Forall_forall in Hlt. by apply Hlt.
  - apply Forall_forall. intros r [[Hs He] Hr]%list_elem_of_filter.
    rewrite Forall_forall in Hrels. destruct (Hrels r Hr) as [Hs' He'].
    assert (∀ i, i ∈ node_ids g →
              i ∉ node_id <$> filter (λ n, loaded_row n) (nodes g) →
              i ∈ node_id <$> filter (λ n, ¬ loaded_row n) (nodes g)) as Hkept.
    { intros i (n & -> & Hn)%list_elem_of_fmap Hout.
      apply list_elem_of_fmap_2, list_elem_of_filter. split; [|done].
      intros Hl. apply Hout, list_elem_of_fmap_2, list_elem_of_filter. done. }
    split; by apply Hkept.
Qed.

(** X12.  The clean-up is idempotent, and it leaves no node of either
    category. *)
Theorem delete_rows_idempotent (g : graph) :
  delete_rows (delete_rows g) = delete_rows g
  ∧ Forall (λ n, ("Paper" ∉ node_labels n)
                 ∧ ("UnclassifiedPaper" ∉ node_labels n))
           (nodes (delete_rows g)).
Proof.
  assert (Forall (λ n, ¬ loaded_row n) (nodes (delete_rows g))) as Hnone.
  { apply Forall_forall. by intros n [? _]%list_elem_of_filter. }
  split.
  - unfold delete_rows at 1. rewrite (filter_all _ _ Hnone).
    rewrite (filter_none (λ n, loaded_row n)).
    + rewrite filter_all; [by destruct g|].
      apply Forall_forall. intros r _. split; apply not_elem_of_nil.
    + rewrite Forall_forall in Hnone. intros n Hn. by apply Hnone.
  - eapply Forall_impl; [exact Hnone|]. intros n Hn.
    unfold loaded_row, has_label in Hn. rewrite orb_True in Hn.
    split; intros Hl; apply Hn; [left|right]; by apply bool_decide_pack.
Qed.

(** *** Witnesses *)

(** Witness of [load_keeps_store_well_formed]: the samples loaded into
    the stocked store. *)
Lemma load_keeps_store_well_formed_witness :
  load Samples.parse_int 1 Samples.content Samples.cites StoreSamples.stocked
  = Some StoreSamples.restocked
  ∧ well_formed StoreSamples.restocked.
Proof.
  split; [by vm_compute|].
  apply (load_keeps_store_well_formed Samples.parse_int 1 Samples.content
           Samples.cites StoreSamples.stocked); [by_compute|by vm_compute].
Defined.

(** Witness of [load_preserves_existing]: the author of the stocked
    store and its relationship are still there after the load, and the
    paper it held, which the first row matches, is the one held out. *)
Lemma load_preserves_existing_witness :
  load Samples.parse_int 1 Samples.content Samples.cites StoreSamples.stocked
  = Some StoreSamples.restocked
  ∧ nodes StoreSamples.restocked !! 0 = Some (Node 0 {[ "Author" ]} ∅)
  ∧ length (nodes StoreSamples.restocked) = 4
  ∧ nodes_with "UnclassifiedPaper" StoreSamples.restocked
    = [ Node 1 {[ "UnclassifiedPaper" ]} (paper_props 35 5 [0; 1; 0]%Z) ]
  ∧ rels StoreSamples.stocked `prefix_of` rels StoreSamples.restocked.
Proof.
  assert (load Samples.parse_int 1 Samples.content Samples.cites
            StoreSamples.stocked = Some StoreSamples.restocked) as Hload
    by (by vm_compute).
  destruct (load_preserves_existing Samples.parse_int 1 Samples.content
              Samples.cites StoreSamples.stocked StoreSamples.restocked
              ltac:(by_compute) Hload)
    as [Hnodes Hrels].
  destruct (Hnodes 0 (Node 0 {[ "Author" ]} ∅) eq_refl)
    as (n' & Hn' & _ & _ & Hsame).
  split_and!; [exact Hload| |by vm_compute|by vm_compute|exact Hrels].
  rewrite Hn', Hsame; [done|].
  change ("Paper" ∉ ({[ "Author" ]} : gset string)).
  by intros [=]%elem_of_singleton.
Defined.

(** Witness of [load_shapes_nodes]: a second load into the sample
    store, whose three nodes are paper nodes. *)
Lemma load_shapes_nodes_witness :
  Forall paper_shaped (nodes Samples.loaded_nodes)
  ∧ load Samples.parse_int 2 Samples.content Samples.cites
         Samples.loaded_nodes = Some StoreSamples.reloaded
  ∧ length (nodes StoreSamples.reloaded) = 5
  ∧ Forall paper_shaped (nodes StoreSamples.reloaded).
Proof.
  assert (Forall paper_shaped (nodes Samples.loaded_nodes)) as Hshaped.
  { replace (nodes Samples.loaded_nodes)
      with [ Node 0 {[ "UnclassifiedPaper" ]} (paper_props 35 5 [0; 1; 0]%Z);
             Node 1 {[ "UnclassifiedPaper" ]} (paper_props 40 4 [1; 1; 0]%Z);
             Node 2 {[ "Paper" ]} (paper_props 114 6 [0; 0; 1]%Z) ]
      by (by vm_compute).
    repeat apply Forall_cons_2; [| | |apply Forall_nil_2].
    - split; [by right|]. exists 35%Z, 5%Z, [0; 1; 0]%Z. split; [done|lia].
    - split; [by right|]. exists 40%Z, 4%Z, [1; 1; 0]%Z. split; [done|lia].
    - split; [by left|]. exists 114%Z, 6%Z, [0; 0; 1]%Z. split; [done|lia]. }
  assert (load Samples.parse_int 2 Samples.content Samples.cites
            Samples.loaded_nodes = Some StoreSamples.reloaded) as Hload
    by (by vm_compute).
  split_and!; [exact Hshaped|exact Hload|by vm_compute|].
  exact (load_shapes_nodes Samples.parse_int 2 Samples.content Samples.cites
           Samples.loaded_nodes StoreSamples.reloaded Hshaped Hload).
Defined.

(** Witness of [load_bounds]: a repeated row, one row held out. *)
Lemma load_bounds_witness :
  ∃ g, load Samples.parse_int 1
            [Samples.paper_a; Samples.paper_b; Samples.paper_b] [] empty_graph
       = Some g
    ∧ length (nodes g) ≤ 3
    ∧ length (nodes_with "UnclassifiedPaper" g) ≤ 1
    ∧ length (nodes_with "UnclassifiedPaper" g)
      + length (nodes_with "Paper" g) = length (nodes g).
Proof.
  eexists. split; [by vm_compute|].
  apply (load_bounds Samples.parse_int 1
           [Samples.paper_a; Samples.paper_b; Samples.paper_b] []).
  by vm_compute.
Defined.

(** Witness of [load_counts_any_holdout]: five held out of three. *)
Lemma load_counts_any_holdout_witness :
  ∃ g, load Samples.parse_int 5 Samples.content Samples.cites empty_graph
       = Some g
    ∧ length (nodes g) = 3
    ∧ length (nodes_with "UnclassifiedPaper" g) = 3
    ∧ length (nodes_with "Paper" g) = 0.
Proof.
  apply (load_counts_any_holdout Samples.parse_int 5 Samples.content
           Samples.cites); by_compute.
Defined.

(** Witness of [load_relationships_same_rows]: the sample citations and
    the same rows in another order, one of them twice. *)
Lemma load_relationships_same_rows_witness :
  ∃ g1 g2,
    load_relationships Samples.parse_int Samples.cites Samples.loaded_nodes
    = Some g1
    ∧ load_relationships Samples.parse_int StoreSamples.cites_shuffled
        Samples.loaded_nodes = Some g2
    ∧ nodes g1 = nodes g2
    ∧ rels g1 ≡ₚ rels g2.
Proof.
  apply (load_relationships_same_rows Samples.parse_int Samples.cites
           StoreSamples.cites_shuffled Samples.loaded_nodes); by_compute.
Defined.

(** Witness of [delete_rows_after_load]: the sample store. *)
Lemma delete_rows_after_load_witness :
  nodes (delete_rows Samples.loaded) = []
  ∧ rels (delete_rows Samples.loaded) = [].
Proof.
  apply (delete_rows_after_load Samples.parse_int 2 Samples.content
           Samples.cites Samples.loaded).
  by vm_compute.
Defined.

(** Witness of [delete_rows_keeps_store_well_formed]: of the stocked
    store after the load the clean-up leaves the author alone, without
    the relationship to the paper that went. *)
Lemma delete_rows_keeps_store_well_formed_witness :
  well_formed StoreSamples.restocked
  ∧ nodes (delete_rows StoreSamples.restocked) = [ Node 0 {[ "Author" ]} ∅ ]
  ∧ rels (delete_rows StoreSamples.restocked) = []
  ∧ well_formed (delete_rows StoreSamples.restocked).
Proof.
  split_and!; [by_compute|by vm_compute|by vm_compute|].
  apply (delete_rows_keeps_store_well_formed StoreSamples.restocked).
  by_compute.
Defined.

End LoadFacts.

(** ** Running the load twice *)

Module RerunFacts.
Import Config Cypher Store ConfigFacts CypherFacts LoadFacts.

Lemma merge_papers_app (bs1 bs2 : list paper_binding) (g : graph) :
  merge_papers g (bs1 ++ bs2)
  = '(g1, ps1) ← merge_papers g bs1;
    '(g2, ps2) ← merge_papers g1 bs2;
    Some (g2, ps1 ++ ps2).
Proof.
  revert g. induction bs1 as [|b bs1 IH]; intros g; simpl.
  - by destruct (merge_papers g bs2) as [[??]|].
  - destruct (merge_paper g b) as [[g1 ps1]|]; [|done]. simpl. rewrite IH.
    destruct (merge_papers g1 bs1) as [[g2 ps2]|]; [|done]. simpl.
    destruct (merge_papers g2 bs2) as [[g3 ps3]|]; [|done]. simpl.
    by rewrite app_assoc.
Qed.

(** Rows that no labeled node matches each create their node. *)
Lemma merge_papers_unmatched (ts : list triple) (g : graph) :
  NoDup ts.*1.*1 →
  (∀ n t, n ∈ nodes g → t ∈ ts → "Paper" ∈ node_labels n →
          node_props n !! "extId" ≠ Some (VInt t.1.1)) →
  merge_papers g (binding_of <$> ts)
  = Some (Graph (nodes g ++ imap (fresh_paper (next_id g)) ts) (rels g)
                (next_id g + length ts),
          seq (next_id g) (length ts)).
Proof.
  revert g. induction ts as [|t ts IH]; intros g Hnd Hfresh.
  - simpl. rewrite app_nil_r, Nat.add_0_r. by destruct g.
  - rewrite !fmap_cons in Hnd. apply NoDup_cons in Hnd as [Hnew Hnd].
    rewrite fmap_cons. cbn [merge_papers].
    assert (merge_paper g (binding_of t)
            = Some (Graph (nodes g ++ [fresh_paper (next_id g) 0 t]) (rels g)
                          (S (next_id g)), [next_id g])) as ->.
    { unfold merge_paper, binding_of; simpl.
      rewrite mapM_fmap_Some by done. simpl. rewrite filter_none.
      - unfold fresh_paper. by rewrite Nat.add_0_r.
      - intros n Hn Hm. apply bool_decide_unpack in Hm as (HP & He & _).
        apply (Hfresh n t); [done|left|done..]. }
    simpl. rewrite IH; [| done |].
    + simpl. do 3 f_equal.
      * rewrite <-app_assoc. do 2 f_equal.
        apply imap_ext. intros i x _. unfold fresh_paper. simpl. f_equal. lia.
      * lia.
    + simpl. intros n t' [Hn|Hn]%elem_of_app Ht' HP.
      * apply Hfresh; [done|by right|done].
      * apply list_elem_of_singleton in Hn as ->. unfold fresh_paper; simpl.
        rewrite paper_props_extId. intros [= He]. apply Hnew. rewrite He.
        apply list_elem_of_fmap. exists t'.1. split; [done|].
        apply list_elem_of_fmap. by exists t'.
Qed.

Lemma singleton_of_unique {A} (x : A) (l : list A) :
  NoDup l → x ∈ l → (∀ y, y ∈ l → y = x) → l = [x].
Proof.
  intros Hnd Hx Hall. destruct l as [|a [|b l]].
  - by apply elem_of_nil in Hx.
  - f_equal. apply Hall. left.
  - apply NoDup_cons in Hnd as [Hab _]. destruct Hab.
    rewrite (Hall a), (Hall b); [left|right; left|left].
Qed.

(** Rows that each match one node bind it and change nothing. *)
Lemma merge_papers_matched (ts : list triple) (ns : list node) (g : graph) :
  Forall2 (λ t n, filter (λ m, matches_paper t.1.1 t.1.2 t.2 m) (nodes g) = [n])
          ts ns →
  merge_papers g (binding_of <$> ts) = Some (g, node_id <$> ns).
Proof.
  induction 1 as [|t n ts ns Hn _ IH]; [done|].
  rewrite !fmap_cons. cbn [merge_papers].
  assert (merge_paper g (binding_of t) = Some (g, [node_id n])) as ->.
  { unfold merge_paper, binding_of; simpl.
    rewrite mapM_fmap_Some by done. simpl. by rewrite Hn. }
  simpl. by rewrite IH.
Qed.

Lemma distinct_extId_index (ts : list triple) (i j : nat) (t t' : triple) :
  NoDup ts.*1.*1 → ts !! i = Some t → ts !! j = Some t' →
  t.1.1 = t'.1.1 → i = j.
Proof.
  unfold triple in *.
  intros Hnd Hi Hj He. apply (NoDup_lookup ts.*1.*1 i j t.1.1 Hnd).
  - by rewrite !list_lookup_fmap, Hi.
  - by rewrite !list_lookup_fmap, Hj, He.
Qed.

Section Rerun.
Variable ts : list triple.
Variable holdout : nat.
Hypothesis Hnd : NoDup ts.*1.*1.
Hypothesis Hk : holdout ≤ length ts.

Local Abbreviation once :=
  (Graph (imap (loaded_paper holdout) ts) [] (length ts)).

Local Abbreviation twice_nodes :=
  (imap (loaded_paper holdout) ts
   ++ imap (fresh_paper (length ts)) (take holdout ts)).

Lemma twice_nodes_NoDup : NoDup twice_nodes.
Proof.
  apply (NoDup_fmap_1 node_id). rewrite fmap_app, !fmap_imap.
  unfold compose. simpl.
  rewrite (imap_seq_0 ts (λ i, i)), list_fmap_id.
  rewrite (imap_seq_0 (take holdout ts) (λ i, length ts + i)).
  apply NoDup_app. split_and!; [apply NoDup_seq| |].
  - intros i Hi%elem_of_seq (j & -> & _)%list_elem_of_fmap. lia.
  - apply NoDup_fmap_2; [|apply NoDup_seq]. intros ???. lia.
Qed.

Lemma twice_unique_match (i : nat) (t : triple) (y : node) :
  holdout ≤ i → ts !! i = Some t → y ∈ twice_nodes →
  matches_paper t.1.1 t.1.2 t.2 y → y = loaded_paper holdout i t.
Proof.
  intros Hi Ht Hy (_ & He & _)%bool_decide_unpack.
  apply elem_of_app in Hy as [Hy|Hy];
    apply elem_of_lookup_imap in Hy as (j & t' & -> & Hj).
  - simpl in He. rewrite paper_props_extId in He. injection He as He.
    assert (j = i) as -> by by eapply distinct_extId_index.
    congruence.
  - simpl in He. rewrite paper_props_extId in He. injection He as He.
    apply lookup_take_Some in Hj as [Hj Hlt].
    assert (j = i) as -> by by eapply distinct_extId_index. lia.
Qed.

Lemma twice_matches (i : nat) (t : triple) :
  holdout ≤ i → ts !! i = Some t →
  filter (λ m, matches_paper t.1.1 t.1.2 t.2 m) twice_nodes
  = [loaded_paper holdout i t].
Proof.
  intros Hi Ht. apply singleton_of_unique.
  - apply NoDup_filter, twice_nodes_NoDup.
  - apply list_elem_of_filter. split.
    + apply bool_decide_pack. unfold loaded_paper. simpl. split_and!; try done.
      by apply held_out_paper.
    + apply elem_of_app. left. apply elem_of_lookup_imap. eauto.
  - intros y [Hm Hy]%list_elem_of_filter. by eapply twice_unique_match.
Qed.

Lemma rerun_merge :
  merge_papers once (binding_of <$> ts)
  = Some (Graph twice_nodes [] (length ts + holdout),
          seq (length ts) holdout ++ seq holdout (length ts - holdout)).
Proof.
  replace (binding_of <$> ts)
    with (binding_of <$> (take holdout ts ++ drop holdout ts))
    by (by rewrite take_drop).
  rewrite fmap_app, merge_papers_app.
  rewrite merge_papers_unmatched.
  - cbn [nodes rels next_id]. rewrite length_take, Nat.min_l by done. simpl.
    rewrite (merge_papers_matched (drop holdout ts)
               (drop holdout (imap (loaded_paper holdout) ts))).
    + simpl. do 3 f_equal. rewrite fmap_drop, fmap_imap. unfold compose. simpl.
      rewrite (imap_seq_0 ts (λ i, i)), list_fmap_id. apply drop_seq.
    + apply Forall2_same_length_lookup_2.
      * by rewrite !length_drop, length_imap.
      * intros i t n Ht Hn. cbn [nodes].
        rewrite lookup_drop in Ht. rewrite lookup_drop in Hn.
        apply list_lookup_imap_Some in Hn as (t' & Ht' & ->).
        assert (t' = t) as ->.
        { apply (inj Some). etransitivity; [symmetry; exact Ht'|exact Ht]. }
        apply twice_matches; [lia|done].
  - eapply sublist_NoDup; [exact Hnd|].
    apply fmap_sublist, fmap_sublist, sublist_take.
  - cbn [nodes]. intros n t (i & ti & -> & Hi)%elem_of_lookup_imap
      [j Hj]%list_elem_of_lookup HP%held_out_paper.
    apply lookup_take_Some in Hj as [Hj Hlt].
    simpl. rewrite paper_props_extId. intros [= He].
    assert (i = j) by by eapply distinct_extId_index. lia.
Qed.

Lemma rerun_relabel :
  (relabel (set_label "UnclassifiedPaper") (seq (length ts) holdout)
   ∘ relabel (remove_label "Paper") (seq (length ts) holdout)) <$> twice_nodes
  = imap (loaded_paper holdout) ts
    ++ imap (duplicate_paper (length ts)) (take holdout ts).
Proof.
  rewrite fmap_app. f_equal.
  - rewrite <-(list_fmap_id (imap _ ts)) at 2. apply list_fmap_ext.
    intros _ n (i & t & -> & Hi%lookup_lt_Some)%list_elem_of_lookup_2%elem_of_lookup_imap.
    unfold compose, relabel. cbn [loaded_paper node_id].
    rewrite (decide_False (P := i ∈ _)) by (rewrite elem_of_seq; lia).
    cbn [loaded_paper node_id]. unfold triple in *.
    by rewrite (decide_False (P := i ∈ _)) by (rewrite elem_of_seq; lia).
  - rewrite fmap_imap. apply imap_ext. intros j t Hj.
    apply lookup_take_Some in Hj as [_ Hj].
    unfold compose, relabel, fresh_paper. simpl. unfold triple in *.
    rewrite (decide_True (P := length ts + j ∈ _)) by (rewrite elem_of_seq; lia).
    simpl.
    by rewrite (decide_True (P := length ts + j ∈ _)) by (rewrite elem_of_seq; lia).
Qed.

End Rerun.

Section Twice.
Variable toInteger : string → option Z.

(** X13.  The node load is not idempotent.  Run a second time on the
    store it produced from convertible rows with distinct identifiers,
    it finds the labeled nodes again but not the held-out ones, which
    no longer carry the labeled category: it creates a second node for
    each of the first [holdout] rows and holds these out, so the store
    then has [holdout] nodes more, twice as many unlabeled nodes, and
    the same labeled ones. *)
Theorem load_nodes_twice (holdout : nat) (content : list csv_row) :
  Forall (well_formed_row toInteger) content →
  distinct_ids toInteger content →
  holdout ≤ length content →
  ∃ g1 g2,
    load_nodes toInteger holdout content empty_graph = Some g1
    ∧ load_nodes toInteger holdout content g1 = Some g2
    ∧ take (length content) (nodes g2) = nodes g1
    ∧ length (nodes g2) = length content + holdout
    ∧ length (nodes_with "UnclassifiedPaper" g2) = 2 * holdout
    ∧ nodes_with "Paper" g2 = nodes_with "Paper" g1.
Proof.
  intros Hwf Hnd Hk.
  destruct (well_formed_bindings toInteger content Hwf) as [ts Hb].
  pose proof (distinct_ids_triples toInteger content ts Hb Hnd) as Hts.
  assert (length ts = length content) as Hlen.
  { by rewrite <-(length_fmap binding_of), <-Hb, length_fmap. }
  rewrite <-Hlen in *.
  rewrite (load_nodes_fresh toInteger holdout content ts Hb Hts).
  rewrite Nat.min_l by done.
  exists (Graph (imap (loaded_paper holdout) ts) [] (length ts)),
         (Graph (imap (loaded_paper holdout) ts
                 ++ imap (duplicate_paper (length ts)) (take holdout ts))
                [] (length ts + holdout)).
  split; [reflexivity|]. split.
  { unfold load_nodes. rewrite Hb, (rerun_merge ts holdout Hts Hk). simpl.
    rewrite take_app_length' by (by rewrite length_seq).
    rewrite (update_nodes_foldl (remove_label "Paper"));
      [| done | apply remove_label_idem].
    rewrite (update_nodes_foldl (set_label "UnclassifiedPaper"));
      [| done | apply set_label_idem].
    cbn [nodes rels next_id].
    by rewrite <-list_fmap_compose, (rerun_relabel ts holdout). }
  unfold nodes_with. cbn [nodes]. split_and!.
  - rewrite take_app_length'; [done|by rewrite length_imap].
  - rewrite length_app, !length_imap, length_take. lia.
  - rewrite filter_app, length_app.
    rewrite (filter_all _ (imap (duplicate_paper (length ts)) _)).
    + rewrite <-(length_fmap node_id (filter _ (imap (loaded_paper holdout) ts))).
      rewrite held_out_ids, length_seq by done.
      rewrite length_imap, length_take. lia.
    + apply Forall_forall. intros n (j & t & -> & _)%elem_of_lookup_imap.
      apply bool_decide_pack.
      change ("UnclassifiedPaper" ∈ ({[ "UnclassifiedPaper" ]} : gset string)).
      by apply elem_of_singleton.
  - rewrite filter_app, (filter_none _ (imap (duplicate_paper _) _)).
    + by rewrite app_nil_r.
    + intros n (j & t & -> & _)%elem_of_lookup_imap HP.
      apply bool_decide_unpack in HP.
      change ("Paper" ∈ ({[ "UnclassifiedPaper" ]} : gset string)) in HP.
      by apply elem_of_singleton in HP.
Qed.

End Twice.
(** Witness of [load_nodes_twice]: the sample content, two held out. *)
Lemma load_nodes_twice_witness :
  ∃ g1 g2,
    load_nodes Samples.parse_int 2 Samples.content empty_graph = Some g1
    ∧ load_nodes Samples.parse_int 2 Samples.content g1 = Some g2
    ∧ take 3 (nodes g2) = nodes g1
    ∧ length (nodes g2) = 5
    ∧ length (nodes_with "UnclassifiedPaper" g2) = 4
    ∧ nodes_with "Paper" g2 = nodes_with "Paper" g1.
Proof.
  apply (load_nodes_twice Samples.parse_int 2 Samples.content);
    [by_compute|by_compute|simpl; lia].
Defined.

End RerunFacts.

(** ** Every run of the notebook *)

Module RunFacts.
Import Notebook Scoping NotebookFacts.

Lemma unbound_None (st : state) (s : stmt) :
  Forall (λ x, x ∈ env st) (reads s) → unbound st s = None.
Proof.
  intros Hall. unfold unbound.
  destruct (list_find _ (reads s)) as [[j y]|] eqn:Hfind; [|done].
  apply list_find_Some in Hfind as (Hy%list_elem_of_lookup_2 & Hno & _).
  rewrite Forall_forall in Hall. by destruct (Hno (Hall y Hy)).
Qed.

Lemma after_trace (pre : list stmt) (st : state) :
  trace (after pre st) = trace st ++ omap call pre.
Proof.
  revert st. induction pre as [|s pre IH]; intros st.
  - by rewrite app_nil_r.
  - unfold after in *. cbn [foldl]. rewrite IH, omap_call_cons.
    simpl. by rewrite app_assoc.
Qed.

(** Statements that read only defined names cannot end the run with a
    name error: either one of them raises, and the run stops there, or
    all of them run and the run goes on after them. *)
Lemma run_well_scoped (raises : nat → bool) (post pre : list stmt)
    (i : nat) (st : state) :
  well_scoped (env st) pre = true →
  (∃ j, i ≤ j < i + length pre ∧ raises j = true
        ∧ (∀ j', i ≤ j' < j → raises j' = false)
        ∧ (run raises i (pre ++ post) st).2 = Raised j
        ∧ trace (run raises i (pre ++ post) st).1
          = trace st ++ omap call (take (S (j - i)) pre))
  ∨ ((∀ j, i ≤ j < i + length pre → raises j = false)
     ∧ run raises i (pre ++ post) st
       = run raises (i + length pre) post (after pre st)).
Proof.
  revert i st. induction pre as [|s pre IH]; intros i st Hsc.
  - right. split; [intros; simpl in *; lia|]. simpl. by rewrite Nat.add_0_r.
  - simpl in Hsc. apply andb_true_iff in Hsc as [Hreads%bool_decide_eq_true Hsc].
    cbn [app run]. rewrite (unbound_None st s Hreads).
    destruct (raises i) eqn:Hr.
    + left. exists i. rewrite Nat.sub_diag. simpl.
      split_and!; [lia|lia|done|intros; lia|done|by destruct (call s)].
    + destruct (IH (S i) (bind_targets s (issue s st)) Hsc)
        as [(j & Hj & Hrj & Hbefore & Hout & Htr)|[Hnone Hrun]].
      * left. exists j. split_and!; [lia|simpl; lia|done| |done|].
        -- intros j' Hj'. destruct (decide (j' = i)) as [->|]; [done|].
           apply Hbefore. lia.
        -- rewrite Htr. replace (j - i) with (S (j - S i)) by lia.
           cbn [take]. rewrite (omap_call_cons s).
           cbn [bind_targets issue trace]. by rewrite app_assoc.
      * right. split.
        -- intros j Hj. destruct (decide (j = i)) as [->|]; [done|].
           apply Hnone. simpl in Hj. lia.
        -- rewrite Hrun. simpl. f_equal. lia.
Qed.

(** How every run of the notebook ends. *)
Lemma notebook_runs (raises : nat → bool) :
  ((∀ j, j < 37 → raises j = false)
   ∧ (run raises 0 notebook initial).2 = NameError "model_fastrp"
   ∧ trace (run raises 0 notebook initial).1 = calls_before_failure)
  ∨ (∃ j, j < 37 ∧ raises j = true
       ∧ (∀ j', j' < j → raises j' = false)
       ∧ (run raises 0 notebook initial).2 = Raised j
       ∧ trace (run raises 0 notebook initial).1
         = omap call (take (S j) notebook)).
Proof.
  rewrite notebook_split.
  destruct (run_well_scoped raises
              (invoke ["model_fastrp"] (Drop "model_fastrp") [] :: drop 38 notebook)
              (take 37 notebook) 0 initial)
    as [(j & Hj & Hrj & Hbefore & Hout & Htr)|[Hnone Hrun]].
  - by vm_compute.
  - right. exists j. change (length (take 37 notebook)) with 37 in Hj.
    split_and!; [lia|done| |done|].
    + intros j' Hj'. apply Hbefore. lia.
    + rewrite Htr, Nat.sub_0_r, take_take, Nat.min_l by lia. done.
  - left. rewrite Hrun. change (length (take 37 notebook)) with 37 in Hnone.
    split_and!; [intros j Hj; apply Hnone; lia|by vm_compute..].
Qed.

(** The run that counts every exception after the call is a phased run. *)
Lemma run_after_call (raises : nat → bool) (i : nat) (prog : list stmt)
    (st : state) :
  run raises i prog st = run_phased (after_call raises) i prog st.
Proof.
  revert i st. induction prog as [|s prog IH]; intros i st; [done|].
  cbn [run run_phased]. destruct (unbound st s); [done|].
  unfold after_call at 1. destruct (raises i); [done|]. apply IH.
Qed.

(** A phased run ends as the run that counts the same exceptions after
    the call, and the calls it issues are an initial segment of the
    calls of that run. *)
Lemma run_phased_within_run (raises : nat → option phase) (i : nat)
    (prog : list stmt) (st : state) :
  (run_phased raises i prog st).2
  = (run (λ j, bool_decide (is_Some (raises j))) i prog st).2
  ∧ trace (run_phased raises i prog st).1
    `prefix_of` trace (run (λ j, bool_decide (is_Some (raises j))) i prog st).1.
Proof.
  revert i st. induction prog as [|s prog IH]; intros i st; [done|].
  cbn [run run_phased]. destruct (unbound st s); [done|].
  destruct (raises i) as [[]|]; simpl; [|done|apply IH].
  split; [done|]. by apply prefix_app_r.
Qed.

(** The phased counterpart of [run_well_scoped]: when the statement that
    raises does so before its call, its call is not in the trace. *)
Lemma run_phased_well_scoped (raises : nat → option phase)
    (post pre : list stmt) (i : nat) (st : state) :
  well_scoped (env st) pre = true →
  (∃ j ph, i ≤ j < i + length pre ∧ raises j = Some ph
        ∧ (∀ j', i ≤ j' < j → raises j' = None)
        ∧ (run_phased raises i (pre ++ post) st).2 = Raised j
        ∧ trace (run_phased raises i (pre ++ post) st).1
          = trace st ++ omap call (take (issued_at ph (j - i)) pre))
  ∨ ((∀ j, i ≤ j < i + length pre → raises j = None)
     ∧ run_phased raises i (pre ++ post) st
       = run_phased raises (i + length pre) post (after pre st)).
Proof.
  revert i st. induction pre as [|s pre IH]; intros i st Hsc.
  - right. split; [intros; simpl in *; lia|]. simpl. by rewrite Nat.add_0_r.
  - simpl in Hsc. apply andb_true_iff in Hsc as [Hreads%bool_decide_eq_true Hsc].
    cbn [app run_phased]. rewrite (unbound_None st s Hreads).
    destruct (raises i) as [ph|] eqn:Hr.
    + left. exists i, ph. rewrite Nat.sub_diag.
      split_and!; [lia|simpl; lia|done|intros; lia|by destruct ph|].
      destruct ph; simpl; [by rewrite app_nil_r|by destruct (call s)].
    + destruct (IH (S i) (bind_targets s (issue s st)) Hsc)
        as [(j & ph & Hj & Hrj & Hbefore & Hout & Htr)|[Hnone Hrun]].
      * left. exists j, ph. split_and!; [lia|simpl; lia|done| |done|].
        -- intros j' Hj'. destruct (decide (j' = i)) as [->|]; [done|].
           apply Hbefore. lia.
        -- rewrite Htr.
           replace (issued_at ph (j - i)) with (S (issued_at ph (j - S i)))
             by (destruct ph; simpl; lia).
           cbn [take]. rewrite (omap_call_cons s).
           cbn [bind_targets issue trace]. by rewrite app_assoc.
      * right. split.
        -- intros j Hj. destruct (decide (j = i)) as [->|]; [done|].
           apply Hnone. simpl in Hj. lia.
        -- rewrite Hrun. simpl. f_equal. lia.
Qed.

(** How every phased run of the notebook ends. *)
Lemma notebook_runs_phased (raises : nat → option phase) :
  ((∀ j, j < 37 → raises j = None)
   ∧ (run_phased raises 0 notebook initial).2 = NameError "model_fastrp"
   ∧ trace (run_phased raises 0 notebook initial).1 = calls_before_failure)
  ∨ (∃ j ph, j < 37 ∧ raises j = Some ph
       ∧ (∀ j', j' < j → raises j' = None)
       ∧ (run_phased raises 0 notebook initial).2 = Raised j
       ∧ trace (run_phased raises 0 notebook initial).1
         = omap call (take (issued_at ph j) notebook)).
Proof.
  rewrite notebook_split.
  destruct (run_phased_well_scoped raises
              (invoke ["model_fastrp"] (Drop "model_fastrp") [] :: drop 38 notebook)
              (take 37 notebook) 0 initial)
    as [(j & ph & Hj & Hrj & Hbefore & Hout & Htr)|[Hnone Hrun]].
  - by vm_compute.
  - right. exists j, ph. change (length (take 37 notebook)) with 37 in Hj.
    split_and!; [lia|done| |done|].
    + intros j' Hj'. apply Hbefore. lia.
    + rewrite Htr, Nat.sub_0_r, take_take, Nat.min_l; [done|].
      destruct ph; simpl; lia.
  - left. rewrite Hrun. change (length (take 37 notebook)) with 37 in Hnone.
    split_and!; [intros j Hj; apply Hnone; lia|by vm_compute..].
Qed.

(** X14.  Every run of the notebook from top to bottom ends in one of
    two ways, wherever its statements raise, before their call or after
    it.  If one of its first 37 statements raises, the run stops at the
    first that does, having issued the calls of the statements before
    it, and the call of that statement only if it raised once the call
    was out.  Otherwise the run stops at [model_fastrp.drop()] with a
    name error, having issued exactly the eighteen calls from the
    connection to the drop of the model.  No other name of the notebook
    is ever undefined when it is read. *)
Theorem notebook_run_outcomes (raises : nat → option phase) :
  ((∀ j, j < 37 → raises j = None)
   ∧ (run_phased raises 0 notebook initial).2 = NameError "model_fastrp"
   ∧ trace (run_phased raises 0 notebook initial).1 = calls_before_failure)
  ∨ (∃ j ph, j < 37 ∧ raises j = Some ph
       ∧ (∀ j', j' < j → raises j' = None)
       ∧ (run_phased raises 0 notebook initial).2 = Raised j
       ∧ trace (run_phased raises 0 notebook initial).1
         = omap call (take (issued_at ph j) notebook)).
Proof. apply notebook_runs_phased. Qed.

(** When the evaluation of the argument of [asNodes] raises, the last
    call that went out is the stream of the predictions; when [asNodes]
    itself raises, it is the call of [asNodes]. *)
Lemma asNodes_argument_raises :
  let early := λ j, if decide (j = 32) then Some BeforeCall else None in
  let late := λ j, if decide (j = 32) then Some AfterCall else None in
  (run_phased early 0 notebook initial).2 = Raised 32
  ∧ last (trace (run_phased early 0 notebook initial).1)
    = Some StreamNodeProperty
  ∧ (run_phased late 0 notebook initial).2 = Raised 32
  ∧ last (trace (run_phased late 0 notebook initial).1) = Some AsNodes.
Proof. by vm_compute. Qed.

Lemma omap_take_prefix {A B} (f : A → option B) (k : nat) (l : list A) :
  omap f (take k l) `prefix_of` omap f l.
Proof.
  rewrite <-(take_drop k l) at 2. rewrite omap_app. by apply prefix_app_r.
Qed.

Lemma notebook_trace_prefix (raises : nat → bool) :
  trace (run raises 0 notebook initial).1 `prefix_of` calls_before_failure.
Proof.
  destruct (notebook_runs raises)
    as [(_ & _ & ->)|(j & Hj & _ & _ & _ & ->)]; [done|].
  change calls_before_failure with (omap call (take 37 notebook)).
  replace (take (S j) notebook) with (take (S j) (take 37 notebook))
    by (rewrite take_take; f_equal; lia).
  apply omap_take_prefix.
Qed.

(** X15.  The calls go out in the order of the notebook: whatever
    raises, the calls issued are an initial segment of the eighteen
    calls from the connection to the drop of the model.  So training is
    requested only after both loads, the projection and the four
    configuration calls, and the write-back only after training and
    prediction. *)
Theorem notebook_calls_in_order (raises : nat → bool) :
  trace (run raises 0 notebook initial).1 `prefix_of` calls_before_failure
  ∧ (Train ∈ trace (run raises 0 notebook initial).1 →
     Forall (λ c, c ∈ trace (run raises 0 notebook initial).1)
       [ RunCypher LoadNodes; RunCypher LoadRelationships; GraphProject;
         PipelineCreate; SelectFeatures; ConfigureSplit;
         AddLogisticRegression; ConfigureAutoTuning ])
  ∧ (WriteNodeProperties ∈ trace (run raises 0 notebook initial).1 →
     Forall (λ c, c ∈ trace (run raises 0 notebook initial).1)
       [ Train; PredictMutate ]).
Proof.
  pose proof (notebook_trace_prefix raises) as Hpre.
  set (t := trace (run raises 0 notebook initial).1) in *.
  assert (∃ k, k < 19 ∧ t = take k calls_before_failure) as (k & Hk & ->).
  { exists (length t). destruct Hpre as [rest Hrest].
    assert (length t + length rest = 18) as Hlen.
    { by rewrite <-length_app, <-Hrest. }
    split; [lia|]. by rewrite Hrest, take_app_length. }
  split; [done|].
  assert (k ∈ seq 0 19) as Hin by (apply elem_of_seq; lia).
  clear Hk Hpre. revert k Hin. apply Forall_forall. by_compute.
Qed.

End RunFacts.
